(** * Networking Game client

    A shallow embedding of the browser client of the networking game:
    [static/gamescript.js] (module [Game]) and the earlier
    [static/networkinggamescript.js] (module [Legacy]).

    Conventions of the embedding.
    - A JavaScript string is modelled by its UTF-8 encoding, a [string] of
      bytes.  Every operation the scripts apply to strings ([replace] with
      ASCII patterns, [trim], concatenation, comparison) acts the same way on
      the encoding: the bytes of a non-ASCII character are all above 127 and
      are neither word characters nor ASCII punctuation.
    - A JavaScript number that holds an integer is a [Z]; [%] is the
      remainder that takes the sign of the dividend, [Z.rem].
    - The scripts are event driven.  Every handler runs to completion until
      its first [await]; the rest of an [async] function is a continuation
      that runs when the response of its [fetch] arrives.  The document, the
      globals, the requests sent and the continuations waiting for a response
      form the [world]; a click or a response is an [event]; [step] runs the
      handler or the continuation of one event.  Responses may arrive in any
      order, so the interleavings of the browser are the sequences of events.
    - The body of a response is modelled at the types of the interface
      contract, every field optional.  The markup written into the page is
      modelled by its content (rows, chips, texts), not by its HTML source.
    - The model starts when [init] has wired the handlers. *)

From Stdlib Require Import ZArith String Ascii List Bool Lia DecimalString.
From stdpp Require Import base strings list gmap.

Local Open Scope string_scope.
Local Open Scope Z_scope.

(** ** JavaScript strings and numbers *)

Module Js.

Definition code (c : ascii) : N := N_of_ascii c.

Definition between (lo hi : N) (c : ascii) : bool :=
  ((lo <=? code c) && (code c <=? hi))%N.

Definition is_lower (c : ascii) : bool := between 97 122 c.
Definition is_upper (c : ascii) : bool := between 65 90 c.
Definition is_digit (c : ascii) : bool := between 48 57 c.

(** The class [\w] of a regular expression without the [u] flag. *)
Definition is_word (c : ascii) : bool :=
  is_lower c || is_upper c || is_digit c || (code c =? 95)%N.

(** [m.toUpperCase()] on one ASCII character. *)
Definition upper (c : ascii) : ascii :=
  if is_lower c then ascii_of_N (code c - 32) else c.

Fixpoint map_chars (f : ascii -> ascii) (s : string) : string :=
  match s with
  | EmptyString => EmptyString
  | String c r => String (f c) (map_chars f r)
  end.

(** [s.replace(/_/g, " ")] *)
Definition underscores_to_spaces (s : string) : string :=
  map_chars (fun c => if (code c =? 95)%N then " "%char else c) s.

(** [s.replace(/\b\w/g, m => m.toUpperCase())].  A match is a word character
    that stands at a word boundary, that is, one whose predecessor in [s] is
    not a word character (or that is first); [prev] tells whether the
    character before the one at hand is a word character. *)
Fixpoint upper_at_boundaries (prev : bool) (s : string) : string :=
  match s with
  | EmptyString => EmptyString
  | String c r =>
      String (if is_word c && negb prev then upper c else c)
             (upper_at_boundaries (is_word c) r)
  end.

(** Decimal text of an integer-valued number, as string concatenation and
    [textContent] produce it. *)
Definition of_Z (z : Z) : string := NilZero.string_of_int (Z.to_int z).

(** [a % b] *)
Definition rem (a b : Z) : Z := Z.rem a b.

(** The white space [String.prototype.trim] removes (WhiteSpace and
    LineTerminator of ECMAScript), each character by its UTF-8 bytes. *)
Definition bytes (l : list N) : string :=
  fold_right (fun n s => String (ascii_of_N n) s) EmptyString l.

Definition white_space : list string :=
  map bytes
    [ [9]; [10]; [11]; [12]; [13]; [32];               (* TAB LF VT FF CR SP *)
      [194; 160];                                      (* U+00A0 *)
      [225; 154; 128];                                 (* U+1680 *)
      [226; 128; 128]; [226; 128; 129]; [226; 128; 130]; [226; 128; 131];
      [226; 128; 132]; [226; 128; 133]; [226; 128; 134]; [226; 128; 135];
      [226; 128; 136]; [226; 128; 137]; [226; 128; 138]; (* U+2000..U+200A *)
      [226; 128; 168]; [226; 128; 169];                (* U+2028 U+2029 *)
      [226; 128; 175];                                 (* U+202F *)
      [226; 129; 159];                                 (* U+205F *)
      [227; 128; 128];                                 (* U+3000 *)
      [239; 187; 191] ]%N.                             (* U+FEFF *)

Definition is_ascii_space (c : ascii) : bool :=
  between 9 13 c || (code c =? 32)%N.

(** Third byte of a white-space character that starts with E2 80. *)
Definition is_e2_80_space (c : ascii) : bool :=
  between 128 138 c || between 168 169 c || (code c =? 175)%N.

(** Is [a b c] the encoding of a three-byte white-space character? *)
Definition is_space3 (a b c : ascii) : bool :=
  let x := code a in let y := code b in let z := code c in
  ((x =? 225) && (y =? 154) && (z =? 128))%N
  || ((x =? 226) && (y =? 128))%N && is_e2_80_space c
  || ((x =? 226) && (y =? 129) && (z =? 159))%N
  || ((x =? 227) && (y =? 128) && (z =? 128))%N
  || ((x =? 239) && (y =? 187) && (z =? 191))%N.

Definition is_space2 (a b : ascii) : bool :=
  ((code a =? 194) && (code b =? 160))%N.

(** Removal of leading white space. *)
Fixpoint trim_start (s : string) : string :=
  match s with
  | String a r1 =>
      if is_ascii_space a then trim_start r1
      else match r1 with
           | String b r2 =>
               if is_space2 a b then trim_start r2
               else match r2 with
                    | String c r3 =>
                        if is_space3 a b c then trim_start r3 else s
                    | EmptyString => s
                    end
           | EmptyString => s
           end
  | EmptyString => s
  end.

Fixpoint rev_string (acc s : string) : string :=
  match s with
  | EmptyString => acc
  | String c r => rev_string (String c acc) r
  end.

(** Removal of leading white space from a reversed string: the bytes of a
    character come last byte first. *)
Fixpoint trim_start_rev (s : string) : string :=
  match s with
  | String a r1 =>
      if is_ascii_space a then trim_start_rev r1
      else match r1 with
           | String b r2 =>
               if is_space2 b a then trim_start_rev r2
               else match r2 with
                    | String c r3 =>
                        if is_space3 c b a then trim_start_rev r3 else s
                    | EmptyString => s
                    end
           | EmptyString => s
           end
  | EmptyString => s
  end.

Definition trim_end (s : string) : string :=
  rev_string EmptyString (trim_start_rev (rev_string EmptyString s)).

(** [s.trim()] *)
Definition trim (s : string) : string := trim_end (trim_start s).

(** A string made of white space only (the empty string included). *)
Inductive blank : string -> Prop :=
| blank_empty : blank EmptyString
| blank_more w s : In w white_space -> blank s -> blank (w +:+ s).

(** [!s] fails: the string is truthy. *)
Definition nonempty (s : string) : bool :=
  match s with EmptyString => false | String _ _ => true end.

(** [o || d] for an optional string [o]: absent and empty both give [d]. *)
Definition or_else (o : option string) (d : string) : string :=
  match o with
  | Some s => if nonempty s then s else d
  | None => d
  end.

End Js.

(** ** Badge labels ([prettyBadge]) *)

Module Badge.

(** The own properties of the object literal [BADGE_LABELS]. *)
Definition BADGE_LABELS : gmap string string :=
  list_to_map
    [ ("badge_first_connection", "🛰️ First Contact");
      ("badge_week_streak_3", "🔥 3-Day Streak");
      ("badge_resource_share", "🎁 Reciprocity Rookie");
      ("badge_coffee_chat", "☕ Coffee Challenger");
      ("badge_outreach_pro", "📡 Outreach Pro") ].

(** [BADGE_LABELS] is an ordinary object: a property it does not own is
    looked up in [Object.prototype], whose properties are these. *)
Definition Object_prototype : list string :=
  [ "constructor"; "toString"; "toLocaleString"; "valueOf";
    "hasOwnProperty"; "isPrototypeOf"; "propertyIsEnumerable";
    "__proto__"; "__defineGetter__"; "__defineSetter__";
    "__lookupGetter__"; "__lookupSetter__" ].

(** What [prettyBadge] can return: a string, or the built-in function or
    object found under an inherited name. *)
Inductive value :=
| Undefined
| Str (s : string)
| Builtin (name : string).

(** [BADGE_LABELS[id]] *)
Definition get (id : string) : value :=
  match BADGE_LABELS !! id with
  | Some label => Str label
  | None => if bool_decide (id ∈ Object_prototype) then Builtin id else Undefined
  end.

Definition truthy (v : value) : bool :=
  match v with
  | Undefined => false
  | Str s => Js.nonempty s
  | Builtin _ => true
  end.

(** The fallback of [prettyBadge]. *)
Definition title_case (id : string) : string :=
  Js.upper_at_boundaries false (Js.underscores_to_spaces id).

Definition prettyBadge (id : string) : value :=
  if truthy (get id) then get id else Str (title_case id).

(** The transform in the words of the specification: underscores become
    spaces, and each word (a maximal run of letters and digits) has its
    first character capitalised.  [words] cuts a string into the runs of
    word characters and the separators between them. *)
Inductive piece :=
| Word (w : string)
| Sep (c : ascii).

Fixpoint pieces (s : string) : list piece :=
  match s with
  | EmptyString => []
  | String c r =>
      if Js.is_word c then
        match pieces r with
        | Word w :: ps => Word (String c w) :: ps
        | ps => Word (String c EmptyString) :: ps
        end
      else Sep c :: pieces r
  end.

Definition capitalize (w : string) : string :=
  match w with
  | EmptyString => EmptyString
  | String c r => String (Js.upper c) r
  end.

Definition unpiece (p : piece) : string :=
  match p with
  | Word w => w
  | Sep c => String c EmptyString
  end.

Definition capitalize_piece (p : piece) : piece :=
  match p with
  | Word w => Word (capitalize w)
  | Sep c => Sep c
  end.

Definition join (ps : list piece) : string :=
  fold_right (fun p s => unpiece p +:+ s) EmptyString ps.

Definition capitalize_each_word (s : string) : string :=
  join (map capitalize_piece (pieces s)).

End Badge.

(** ** What the server sends and what the client asks *)

Module Net.

(** A task of the progress state. *)
Record task := {
  task_id : string;
  description : string;
  task_points : Z;
  category : string;
  completed : bool }.

(** A row of the leaderboard; [??] supplies a default for an absent field. *)
Record leader := {
  rank : option Z;
  username : option string;
  leader_points : option Z }.

(** A JSON object, by the fields the scripts read, each at the type of the
    interface contract; [None] is an absent ([undefined]) field.
    [scenario_prompt] is [j?.scenario?.prompt]. *)
Record object := {
  points : option Z;
  streak : option Z;
  level : option string;
  badges : option (list string);
  tasks : option (list task);
  error : option string;
  scenario_prompt : option string;
  earned : option Z;
  tips : option (list string);
  reply : option string }.

(** An object, or an array, none of whose fields the scripts read is there. *)
Definition no_fields : object :=
  {| points := None; streak := None; level := None; badges := None;
     tasks := None; error := None; scenario_prompt := None; earned := None;
     tips := None; reply := None |}.

(** The body of a response as [res.json()] gives it: [NotJson] when the
    promise rejects.  The entries of an array are objects: an array with an
    entry [null], on which [loadLeaderboard] throws after it has emptied the
    table, has no counterpart here. *)
Inductive body :=
| NotJson
| Null
| Array (rows : list leader)
| Object (o : object).

(** The outcome of a [fetch]: the promise rejects (the request never
    completes), or a response arrives with its [ok] flag and its body. *)
Inductive response :=
| Rejected
| Replied (ok : bool) (b : body).

Inductive quest_type := outreach | coffee | followup | reciprocity.

Inductive request :=
| GetLeaderboard
| GetState
| PostCompleteTask (taskId : string)
| PostQuestStart (type : quest_type)
| PostQuestScore (type : quest_type) (text choice : string)
| PostCoachChat (text : string).

#[global] Instance quest_type_eq_dec : EqDecision quest_type.
Proof. solve_decision. Defined.

#[global] Instance request_eq_dec : EqDecision request.
Proof. solve_decision. Defined.

End Net.

(** ** static/gamescript.js *)

Module Game.
Import Net.

(** *** The document *)

(** What stands at the right of a task row: the mark of a completed task, or
    a button whose click calls [completeTask] with the identifier. *)
Inductive action :=
| Completed
| Complete (taskId : string).

(** The strings of a row are those the script interpolates into the markup
    it assigns to [innerHTML], unescaped: they are the texts on the page
    when they hold no markup of their own. *)
Record task_row := {
  row_description : string;
  row_xp : string;
  row_action : action }.

Record leader_row := {
  row_me : bool;
  row_rank : string;
  row_name : string;
  row_pts : string }.

(** A follow-up choice chip. *)
Record pill := {
  data_choice : option string;
  active : bool;
  aria_pressed : bool }.

(** The progress part of the page. *)
Record hud := {
  points_text : string;
  streak_text : string;
  level_name : string;
  xp_bar_width : string;
  badge_chips : list Badge.value;
  daily_list : list task_row;
  weekly_list : list task_row }.

(** The quest modal: [style.display] of the modal and of the follow-up
    choices, the text of title, prompt and score result, the value of the
    textarea. *)
Record quest_ui := {
  modal_display : string;
  title : string;
  prompt : string;
  text : string;
  score_result : string;
  follow_display : string;
  pills : list pill }.

(** The coach modal; [feed] holds the [innerHTML] of each message. *)
Record coach_ui := {
  coach_display : string;
  feed : list string;
  input : string;
  status : string }.

(** The global [currentQuest]. *)
Record quest := {
  type : quest_type;
  choice : string }.

Record world := {
  view : hud;
  board : list leader_row;
  quest_view : quest_ui;
  coach : coach_ui;
  currentQuest : quest;
  alerts : list string;         (* messages shown by alert(), oldest first *)
  console : list string;        (* messages logged, oldest first *)
  sent : list request;          (* every request issued, oldest first *)
  pending : list nat }.         (* positions in [sent] of those in flight *)

(** The elements the script looks up by identifier; [false] when the page
    has no such element. *)
Record page := {
  has_leaderboard_body : bool;
  has_points : bool;
  has_streak : bool;
  has_level_name : bool;
  has_xp_bar : bool;
  has_badges : bool;
  has_daily_list : bool;
  has_weekly_list : bool;
  has_quest_modal : bool;
  has_quest_title : bool;
  has_quest_prompt : bool;
  has_quest_text : bool;
  has_score_result : bool;
  has_followup_choices : bool;
  has_coach_modal : bool;
  has_coach_feed : bool;
  has_coach_input : bool;
  has_coach_status : bool }.

(** *** Assignments *)

Definition with_view (f : hud -> hud) (w : world) : world :=
  {| view := f (view w); board := board w; quest_view := quest_view w;
     coach := coach w; currentQuest := currentQuest w; alerts := alerts w;
     console := console w; sent := sent w; pending := pending w |}.

Definition with_board (b : list leader_row) (w : world) : world :=
  {| view := view w; board := b; quest_view := quest_view w;
     coach := coach w; currentQuest := currentQuest w; alerts := alerts w;
     console := console w; sent := sent w; pending := pending w |}.

Definition with_quest_view (f : quest_ui -> quest_ui) (w : world) : world :=
  {| view := view w; board := board w; quest_view := f (quest_view w);
     coach := coach w; currentQuest := currentQuest w; alerts := alerts w;
     console := console w; sent := sent w; pending := pending w |}.

Definition with_coach (f : coach_ui -> coach_ui) (w : world) : world :=
  {| view := view w; board := board w; quest_view := quest_view w;
     coach := f (coach w); currentQuest := currentQuest w; alerts := alerts w;
     console := console w; sent := sent w; pending := pending w |}.

Definition with_currentQuest (q : quest) (w : world) : world :=
  {| view := view w; board := board w; quest_view := quest_view w;
     coach := coach w; currentQuest := q; alerts := alerts w;
     console := console w; sent := sent w; pending := pending w |}.

Definition with_pending (p : list nat) (w : world) : world :=
  {| view := view w; board := board w; quest_view := quest_view w;
     coach := coach w; currentQuest := currentQuest w; alerts := alerts w;
     console := console w; sent := sent w; pending := p |}.

(** [alert(m)] *)
Definition alert (m : string) (w : world) : world :=
  {| view := view w; board := board w; quest_view := quest_view w;
     coach := coach w; currentQuest := currentQuest w;
     alerts := alerts w ++ [m];
     console := console w; sent := sent w; pending := pending w |}.

(** [console.error(m, ...)], [console.warn(m, ...)] *)
Definition log (m : string) (w : world) : world :=
  {| view := view w; board := board w; quest_view := quest_view w;
     coach := coach w; currentQuest := currentQuest w; alerts := alerts w;
     console := console w ++ [m];
     sent := sent w; pending := pending w |}.

(** [fetch(...)]: the request goes out and its response is awaited. *)
Definition fetch (r : request) (w : world) : world :=
  {| view := view w; board := board w; quest_view := quest_view w;
     coach := coach w; currentQuest := currentQuest w; alerts := alerts w;
     console := console w;
     sent := sent w ++ [r];
     pending := pending w ++ [length (sent w)] |}.

Definition set_points_text (v : string) (h : hud) : hud :=
  {| points_text := v; streak_text := streak_text h;
     level_name := level_name h; xp_bar_width := xp_bar_width h;
     badge_chips := badge_chips h; daily_list := daily_list h;
     weekly_list := weekly_list h |}.

Definition set_streak_text (v : string) (h : hud) : hud :=
  {| points_text := points_text h; streak_text := v;
     level_name := level_name h; xp_bar_width := xp_bar_width h;
     badge_chips := badge_chips h; daily_list := daily_list h;
     weekly_list := weekly_list h |}.

Definition set_level_name (v : string) (h : hud) : hud :=
  {| points_text := points_text h; streak_text := streak_text h;
     level_name := v; xp_bar_width := xp_bar_width h;
     badge_chips := badge_chips h; daily_list := daily_list h;
     weekly_list := weekly_list h |}.

Definition set_xp_bar_width (v : string) (h : hud) : hud :=
  {| points_text := points_text h; streak_text := streak_text h;
     level_name := level_name h; xp_bar_width := v;
     badge_chips := badge_chips h; daily_list := daily_list h;
     weekly_list := weekly_list h |}.

Definition set_badge_chips (v : list Badge.value) (h : hud) : hud :=
  {| points_text := points_text h; streak_text := streak_text h;
     level_name := level_name h; xp_bar_width := xp_bar_width h;
     badge_chips := v; daily_list := daily_list h;
     weekly_list := weekly_list h |}.

Definition set_daily_list (v : list task_row) (h : hud) : hud :=
  {| points_text := points_text h; streak_text := streak_text h;
     level_name := level_name h; xp_bar_width := xp_bar_width h;
     badge_chips := badge_chips h; daily_list := v;
     weekly_list := weekly_list h |}.

Definition set_weekly_list (v : list task_row) (h : hud) : hud :=
  {| points_text := points_text h; streak_text := streak_text h;
     level_name := level_name h; xp_bar_width := xp_bar_width h;
     badge_chips := badge_chips h; daily_list := daily_list h;
     weekly_list := v |}.

Definition set_modal_display (v : string) (q : quest_ui) : quest_ui :=
  {| modal_display := v; title := title q; prompt := prompt q;
     text := text q; score_result := score_result q;
     follow_display := follow_display q; pills := pills q |}.

Definition set_title (v : string) (q : quest_ui) : quest_ui :=
  {| modal_display := modal_display q; title := v; prompt := prompt q;
     text := text q; score_result := score_result q;
     follow_display := follow_display q; pills := pills q |}.

Definition set_prompt (v : string) (q : quest_ui) : quest_ui :=
  {| modal_display := modal_display q; title := title q; prompt := v;
     text := text q; score_result := score_result q;
     follow_display := follow_display q; pills := pills q |}.

Definition set_text (v : string) (q : quest_ui) : quest_ui :=
  {| modal_display := modal_display q; title := title q; prompt := prompt q;
     text := v; score_result := score_result q;
     follow_display := follow_display q; pills := pills q |}.

Definition set_score_result (v : string) (q : quest_ui) : quest_ui :=
  {| modal_display := modal_display q; title := title q; prompt := prompt q;
     text := text q; score_result := v;
     follow_display := follow_display q; pills := pills q |}.

Definition set_follow_display (v : string) (q : quest_ui) : quest_ui :=
  {| modal_display := modal_display q; title := title q; prompt := prompt q;
     text := text q; score_result := score_result q;
     follow_display := v; pills := pills q |}.

Definition set_pills (v : list pill) (q : quest_ui) : quest_ui :=
  {| modal_display := modal_display q; title := title q; prompt := prompt q;
     text := text q; score_result := score_result q;
     follow_display := follow_display q; pills := v |}.

Definition set_coach_display (v : string) (c : coach_ui) : coach_ui :=
  {| coach_display := v; feed := feed c; input := input c;
     status := status c |}.

Definition set_feed (v : list string) (c : coach_ui) : coach_ui :=
  {| coach_display := coach_display c; feed := v; input := input c;
     status := status c |}.

Definition set_input (v : string) (c : coach_ui) : coach_ui :=
  {| coach_display := coach_display c; feed := feed c; input := v;
     status := status c |}.

Definition set_status (v : string) (c : coach_ui) : coach_ui :=
  {| coach_display := coach_display c; feed := feed c; input := input c;
     status := v |}.

(** *** Small utilities *)

Definition escape_char (c : ascii) : string :=
  let n := Js.code c in
  if (n =? 38)%N then "&amp;"
  else if (n =? 60)%N then "&lt;"
  else if (n =? 62)%N then "&gt;"
  else if (n =? 34)%N then "&quot;"
  else if (n =? 39)%N then "&#39;"
  else String c EmptyString.

Fixpoint escapeHtml (s : string) : string :=
  match s with
  | EmptyString => EmptyString
  | String c r => escape_char c +:+ escapeHtml r
  end.

(** [x ?? 0] and its decimal text. *)
Definition number_or_zero (x : option Z) : Z := default 0 x.

(** An interpolated [${x}] of an optional number. *)
Definition interpolate (x : option Z) : string :=
  match x with
  | Some z => Js.of_Z z
  | None => "undefined"
  end.

Section Handlers.

Variable pg : page.

(** [byId(id)] followed by a guarded use of the element. *)
Definition byId (present : bool) (id : string) (use : world -> world)
    (w : world) : world :=
  if present then use w else log ("[game] missing #" +:+ id) w.

Definition setText (present : bool) (id : string) (set : hud -> hud) :
    world -> world :=
  byId present id (with_view set).

Definition setWidth := setText.

(** *** Leaderboard *)

Definition leader_to_row (r : leader) : leader_row :=
  {| row_me := bool_decide (username r = Some "Player-001");
     row_rank := from_option Js.of_Z "" (rank r);
     row_name := default "" (username r);
     row_pts := Js.of_Z (number_or_zero (leader_points r)) |}.

Definition no_data_row : leader_row :=
  {| row_me := false; row_rank := ""; row_name := "No data yet";
     row_pts := "0" |}.

(** [loadLeaderboard] up to its first [await]. *)
Definition loadLeaderboard : world -> world := fetch GetLeaderboard.

(** [loadLeaderboard] from the arrival of the response. *)
Definition after_leaderboard (r : response) (w : world) : world :=
  match r with
  | Rejected | Replied _ NotJson => log "[game] loadLeaderboard error:" w
  | Replied _ b =>
      if has_leaderboard_body pg then
        match b with
        | Array (r1 :: rs) => with_board (map leader_to_row (r1 :: rs)) w
        | _ => with_board [no_data_row] w
        end
      else log "[game] missing #leaderboard-body" w
  end.

(** *** State and tasks *)

Definition xp_width (p : Z) : string :=
  Js.of_Z (Z.min 100 (Js.rem p 100)) +:+ "%".

(** The row [renderTasks] builds for a task.  The button of an open task
    is taken to be found by [row.querySelector], as it is when the
    description (written before it, unescaped) opens no tag or comment and
    the identifier closes no attribute value; a click on a button that the
    markup has swallowed is an event that cannot happen on the page. *)
Definition task_to_row (t : task) : task_row :=
  {| row_description := description t;
     row_xp := Js.of_Z (task_points t) +:+ " XP";
     row_action := if completed t then Completed else Complete (task_id t) |}.

Definition renderTasks (present : bool) (containerId : string)
    (set : list task_row -> hud -> hud) (ts : list task) (w : world) : world :=
  if present then with_view (set (map task_to_row ts)) w
  else log ("[game] missing container " +:+ containerId) w.

Definition render_badges (o : object) (w : world) : world :=
  if has_badges pg
  then with_view (set_badge_chips (map Badge.prettyBadge (default [] (badges o)))) w
  else w.

(** The body of [loadState] once [data] is there. *)
Definition render_state (o : object) (w : world) : world :=
  let w := setText (has_points pg) "points"
             (set_points_text (Js.of_Z (number_or_zero (points o)))) w in
  let w := setText (has_streak pg) "streak"
             (set_streak_text (Js.of_Z (number_or_zero (streak o)))) w in
  let w := setText (has_level_name pg) "level-name"
             (set_level_name (default "Rookie Connector" (level o))) w in
  let w := setWidth (has_xp_bar pg) "xp-bar"
             (set_xp_bar_width (xp_width (number_or_zero (points o)))) w in
  let w := render_badges o w in
  let w := renderTasks (has_daily_list pg) "daily-list" set_daily_list
             (filter (fun t => category t = "daily") (default [] (tasks o))) w in
  renderTasks (has_weekly_list pg) "weekly-list" set_weekly_list
    (filter (fun t => category t = "weekly") (default [] (tasks o))) w.

Definition loadState : world -> world := fetch GetState.

(** [loadState] from the arrival of the response.  Reading a field of
    [null] throws before anything is written. *)
Definition after_state (r : response) (w : world) : world :=
  match r with
  | Rejected | Replied _ NotJson | Replied _ Null =>
      log "[game] loadState error:" w
  | Replied _ (Array _) => render_state no_fields w
  | Replied _ (Object o) => render_state o w
  end.

(** [Promise.all([loadState(), loadLeaderboard()])]: both requests go out,
    each function goes on when its own response arrives. *)
Definition refresh (w : world) : world := loadLeaderboard (loadState w).

(** [completeTask(taskId)] up to its first [await]. *)
Definition completeTask (taskId : string) : world -> world :=
  fetch (PostCompleteTask taskId).

(** [completeTask] from the arrival of the response. *)
Definition after_completeTask (r : response) (w : world) : world :=
  match r with
  | Rejected | Replied _ NotJson => log "[game] completeTask error:" w
  | Replied false Null => log "[game] completeTask error:" w
  | Replied false (Array _) => alert "Could not complete task." w
  | Replied false (Object o) =>
      alert (Js.or_else (error o) "Could not complete task.") w
  | Replied true _ => refresh w
  end.

(** *** Quests *)

(** [ensureModal()]: what it returns and the world it leaves. *)
Definition ensureModal (w : world) : bool * world :=
  if negb (has_quest_modal pg) || negb (has_quest_title pg)
     || negb (has_quest_prompt pg) || negb (has_quest_text pg)
     || negb (has_score_result pg) || negb (has_followup_choices pg)
  then
    (false,
     alert "Quest UI is missing in HTML. Add the Quest Modal block with required IDs."
       (log "[game] quest modal pieces missing" w))
  else (true, w).

(** The six elements of the quest modal are on the page. *)
Definition ensureModal_ok : bool :=
  has_quest_modal pg && has_quest_title pg && has_quest_prompt pg
  && has_quest_text pg && has_score_result pg && has_followup_choices pg.

Definition quest_title (t : quest_type) : string :=
  match t with
  | outreach => "Outreach Craft"
  | coffee => "Coffee-Chat Prep"
  | followup => "Follow-Up Timing"
  | reciprocity => "Reciprocity Builder"
  end.

Definition release (p : pill) : pill :=
  {| data_choice := data_choice p; active := false; aria_pressed := false |}.

Definition fallback_prompt : string := "Write your answer below.".

(** [openQuest(type)] up to its first [await]. *)
Definition openQuest (t : quest_type) (w : world) : world :=
  let (ok, w) := ensureModal w in
  if ok then
    let w := with_currentQuest {| type := t; choice := "" |} w in
    let w := with_quest_view (set_modal_display "block") w in
    let w := with_quest_view (set_title (quest_title t)) w in
    let w := with_quest_view (set_prompt "Loading scenario…") w in
    let w := with_quest_view (set_text "") w in
    let w := with_quest_view (set_score_result "") w in
    let w := with_quest_view
               (set_follow_display
                  (if bool_decide (t = followup) then "flex" else "none")) w in
    let w := with_quest_view (fun q => set_pills (map release (pills q)) q) w in
    fetch (PostQuestStart t) w
  else w.

(** [openQuest] from the arrival of the response. *)
Definition after_questStart (r : response) (w : world) : world :=
  match r with
  | Rejected | Replied _ NotJson =>
      with_quest_view (set_prompt fallback_prompt)
        (log "[game] /quest/start failed; using fallback" w)
  | Replied _ (Object o) =>
      with_quest_view
        (set_prompt (Js.or_else (scenario_prompt o) fallback_prompt)) w
  | Replied _ _ => with_quest_view (set_prompt fallback_prompt) w
  end.

(** The close button of the quest modal. *)
Definition closeQuest (w : world) : world :=
  if has_quest_modal pg then with_quest_view (set_modal_display "none") w
  else w.

Definition press (on : bool) (p : pill) : pill :=
  {| data_choice := data_choice p; active := on; aria_pressed := on |}.

(** The click handler of the follow-up chip at position [i]. *)
Definition choosePill (i : nat) (w : world) : world :=
  match pills (quest_view w) !! i with
  | Some btn =>
      let w := with_currentQuest
                 {| type := type (currentQuest w);
                    choice := Js.or_else (data_choice btn) "" |} w in
      with_quest_view
        (fun q => set_pills (imap (fun j b => press (bool_decide (j = i)) b) (pills q)) q)
        w
  | None => w
  end.

(** The handler of the score button up to its first [await]. *)
Definition scoreQuest (w : world) : world :=
  let (ok, w) := ensureModal w in
  if ok then
    fetch (PostQuestScore (type (currentQuest w)) (text (quest_view w))
             (choice (currentQuest w))) w
  else w.

Definition score_summary (o : object) : string :=
  "+" +:+ interpolate (earned o) +:+ " XP"
  +:+ match tips o with
      | Some (tip :: _) => " • " +:+ tip
      | _ => ""
      end.

Definition could_not_score (w : world) : world :=
  with_quest_view (set_score_result "Could not score. Try again.")
    (log "[game] /quest/score failed" w).

(** The handler of the score button from the arrival of the response. *)
Definition after_questScore (r : response) (w : world) : world :=
  match r with
  | Rejected | Replied _ NotJson | Replied _ Null => could_not_score w
  | Replied _ (Array _) =>
      refresh (with_quest_view (set_score_result (score_summary no_fields)) w)
  | Replied _ (Object o) =>
      refresh (with_quest_view (set_score_result (score_summary o)) w)
  end.

(** *** Coach chat *)

Inductive role := user | assistant.

Definition message (r : role) (t : string) : string :=
  match r with
  | user => "<b>You:</b> " +:+ escapeHtml t
  | assistant => "<b>Coach:</b> " +:+ escapeHtml t
  end.

(** [push(role, text)] *)
Definition push (r : role) (t : string) : world -> world :=
  with_coach (fun c => set_feed (feed c ++ [message r t]) c).

Definition coach_ok : bool :=
  has_coach_feed pg && has_coach_input pg && has_coach_status pg.

Definition openCoach (w : world) : world :=
  if has_coach_modal pg && coach_ok then
    let w := with_coach (set_feed []) w in
    let w := with_coach (set_input "") w in
    let w := with_coach (set_status "") w in
    with_coach (set_coach_display "block") w
  else w.

Definition closeCoach (w : world) : world :=
  if has_coach_modal pg then with_coach (set_coach_display "none") w else w.

(** The statements of the send handler, one constructor per statement that
    has an effect: a call of [push], an assignment to [status.textContent],
    an assignment to [input.value], a call of [fetch]. *)
Inductive effect :=
| Push (r : role) (t : string)
| SetStatus (s : string)
| SetInput (s : string)
| Fetch (req : request).

Definition perform (e : effect) (w : world) : world :=
  match e with
  | Push r t => push r t w
  | SetStatus s => with_coach (set_status s) w
  | SetInput s => with_coach (set_input s) w
  | Fetch req => fetch req w
  end.

(** The statements are performed one after the other, first to last. *)
Definition perform_all (es : list effect) (w : world) : world :=
  fold_left (fun w e => perform e w) es w.

(** The statements the handler of the send button runs up to its first
    [await], in the order of the source: the two guards, then [push], the
    status line, the input, [fetch]. *)
Definition coachSend_effects (w : world) : list effect :=
  if coach_ok then
    if Js.nonempty (Js.trim (input (coach w))) then
      [ Push user (Js.trim (input (coach w)));
        SetStatus "Thinking…";
        SetInput "";
        Fetch (PostCoachChat (Js.trim (input (coach w)))) ]
    else []
  else [].

(** The handler of the send button up to its first [await]. *)
Definition coachSend (w : world) : world :=
  perform_all (coachSend_effects w) w.

(** The handler of the send button from the arrival of the response. *)
Definition after_coachChat (r : response) (w : world) : world :=
  let w :=
    match r with
    | Rejected | Replied _ NotJson | Replied _ Null =>
        push assistant "I hit a snag. Try again." w
    | Replied _ (Array _) => push assistant "Sorry, no reply." w
    | Replied _ (Object o) =>
        push assistant (Js.or_else (reply o) "Sorry, no reply.") w
    end in
  with_coach (set_status "") w.

End Handlers.

(** *** Events *)

#[global] Instance action_eq_dec : EqDecision action.
Proof. solve_decision. Defined.

(** What can happen once [init] has wired the handlers: a click on a button
    that is there, an edit of a text field, the arrival of a response. *)
Inductive event :=
| ClickComplete (taskId : string)
| ClickStart (t : quest_type)
| ClickCloseQuest
| ClickPill (i : nat)
| ClickScoreQuest
| EditQuestText (s : string)
| ClickOpenCoach
| ClickCoachClose
| ClickCoachSend
| EditCoachInput (s : string)
| Response (i : nat) (r : response).

(** [renderTasks] has put a Complete button for this task on the page. *)
Definition has_button (taskId : string) (w : world) : bool :=
  bool_decide
    (Complete taskId
       ∈ map row_action (daily_list (view w) ++ weekly_list (view w))).

Definition settle (i : nat) (w : world) : world :=
  with_pending (filter (fun j => j ≠ i) (pending w)) w.

(** The response of request [i] arrives: the function that awaits it goes
    on.  A response for a request that is not in flight cannot arrive. *)
Definition receive (pg : page) (i : nat) (r : response) (w : world) : world :=
  if bool_decide (i ∈ pending w) then
    match sent w !! i with
    | Some GetLeaderboard => after_leaderboard pg r (settle i w)
    | Some GetState => after_state pg r (settle i w)
    | Some (PostCompleteTask _) => after_completeTask r (settle i w)
    | Some (PostQuestStart _) => after_questStart r (settle i w)
    | Some (PostQuestScore _ _ _) => after_questScore r (settle i w)
    | Some (PostCoachChat _) => after_coachChat r (settle i w)
    | None => w
    end
  else w.

Definition step (pg : page) (e : event) (w : world) : world :=
  match e with
  | ClickComplete taskId =>
      if has_button taskId w then completeTask taskId w else w
  | ClickStart t => openQuest pg t w
  | ClickCloseQuest => closeQuest pg w
  | ClickPill i => choosePill i w
  | ClickScoreQuest => scoreQuest pg w
  | EditQuestText s =>
      if has_quest_text pg then with_quest_view (set_text s) w else w
  | ClickOpenCoach => openCoach pg w
  | ClickCoachClose => closeCoach pg w
  | ClickCoachSend => coachSend pg w
  | EditCoachInput s =>
      if has_coach_input pg then with_coach (set_input s) w else w
  | Response i r => receive pg i r w
  end.

Definition run (pg : page) (es : list event) (w : world) : world :=
  fold_left (fun w e => step pg e w) es w.

(** The world when the handlers have just been wired, on a page whose
    follow-up chips carry the given [data-choice] attributes. *)
Definition boot (choices : list (option string)) : world :=
  {| view := {| points_text := ""; streak_text := ""; level_name := "";
                xp_bar_width := ""; badge_chips := []; daily_list := [];
                weekly_list := [] |};
     board := [];
     quest_view := {| modal_display := ""; title := ""; prompt := "";
                      text := ""; score_result := ""; follow_display := "";
                      pills := map (fun c => {| data_choice := c;
                                                active := false;
                                                aria_pressed := false |})
                                   choices |};
     coach := {| coach_display := ""; feed := []; input := ""; status := "" |};
     currentQuest := {| type := outreach; choice := "" |};
     alerts := []; console := []; sent := []; pending := [] |}.

(** A page with every element the script looks up. *)
Definition full_page : page :=
  {| has_leaderboard_body := true; has_points := true; has_streak := true;
     has_level_name := true; has_xp_bar := true; has_badges := true;
     has_daily_list := true; has_weekly_list := true;
     has_quest_modal := true; has_quest_title := true;
     has_quest_prompt := true; has_quest_text := true;
     has_score_result := true; has_followup_choices := true;
     has_coach_modal := true; has_coach_feed := true;
     has_coach_input := true; has_coach_status := true |}.

(** *** The status of the quest session

    The script keeps no status variable.  The status of the specification
    is read off the world: the modal has never been shown ([Idle]), is shown
    ([Loading] while a scenario request is in flight, [Scoring] while a
    score request is, [Active] otherwise) or has been closed ([Closed]). *)

Inductive session_status := Idle | Loading | Active | Scoring | Closed.

Definition is_start (r : request) : bool :=
  match r with PostQuestStart _ => true | _ => false end.

Definition is_score (r : request) : bool :=
  match r with PostQuestScore _ _ _ => true | _ => false end.

Definition awaiting (kind : request -> bool) (w : world) : bool :=
  existsb (fun i => from_option kind false (sent w !! i)) (pending w).

Definition status_of (w : world) : session_status :=
  if String.eqb (modal_display (quest_view w)) "block" then
    if awaiting is_start w then Loading
    else if awaiting is_score w then Scoring
    else Active
  else if String.eqb (modal_display (quest_view w)) "none" then Closed
  else Idle.

End Game.

(** ** static/networkinggamescript.js

    The earlier script keeps its elements in constants read when it loads;
    the model takes them to be there.  It has no leaderboard, no quests and
    no coach. *)

Module Legacy.
Import Net.

Inductive action :=
| Completed
| Complete (taskId : string).

Record item := {
  item_text : string;
  item_action : action }.

Record view := {
  points_text : string;
  streak_text : string;
  bar_width : string;
  bar_text : string;
  badge_spans : list string;
  daily : list item;
  weekly : list item }.

Record world := {
  page : view;
  alerts : list string;
  sent : list request }.

(** [data.points % 100], [NaN] (here [None]) when the field is absent. *)
Definition pct (o : object) : option Z :=
  match points o with
  | Some p => Some (Js.rem p 100)
  | None => None
  end.

Definition pct_text (o : object) : string :=
  match pct o with
  | Some z => Js.of_Z z
  | None => "NaN"
  end.

(** The item [renderState] builds for a task, under the same reading of
    the markup as [Game.task_to_row]; where the markup leaves no button,
    the earlier script throws on [li.querySelector("button")] and the
    rendering stops. *)
Definition task_to_item (t : task) : item :=
  {| item_text := description t +:+ " (" +:+ Js.of_Z (task_points t) +:+ " XP)";
     item_action := if completed t then Completed else Complete (task_id t) |}.

(** [renderState(data)]: every part of the view is written anew. *)
Definition renderState (o : object) : view :=
  {| points_text := from_option Js.of_Z "" (points o);
     streak_text := Game.interpolate (streak o) +:+ " Days";
     bar_width := pct_text o +:+ "%";
     bar_text := pct_text o +:+ "% to Next Level";
     badge_spans := default [] (badges o);
     daily := map task_to_item
                (filter (fun t => category t = "daily") (default [] (tasks o)));
     weekly := map task_to_item
                 (filter (fun t => category t = "weekly") (default [] (tasks o))) |}.

Definition with_page (v : view) (w : world) : world :=
  {| page := v; alerts := alerts w; sent := sent w |}.

Definition alert (m : string) (w : world) : world :=
  {| page := page w; alerts := alerts w ++ [m]; sent := sent w |}.

(** [completeTask(taskId)] up to its first [await]. *)
Definition completeTask (taskId : string) (w : world) : world :=
  {| page := page w; alerts := alerts w;
     sent := sent w ++ [PostCompleteTask taskId] |}.

(** [completeTask] from the arrival of the response.  Nothing catches a
    rejection or the error of reading a field of [null]: the function stops
    there. *)
Definition after_completeTask (r : response) (w : world) : world :=
  match r with
  | Rejected | Replied _ NotJson | Replied _ Null => w
  | Replied true (Array _) => with_page (renderState no_fields) w
  | Replied true (Object o) => with_page (renderState o) w
  | Replied false (Array _) => alert "Could not complete task." w
  | Replied false (Object o) =>
      alert (Js.or_else (error o) "Could not complete task.") w
  end.

End Legacy.

(** ** static/gamescript.js: start-up

    [init] asks for the leaderboard and for the state, waits for both
    functions to finish, then wires the handlers of the quest and of the
    coach.  Until then a click on one of their buttons does nothing; the
    Complete buttons are bound by [renderTasks] itself. *)

Module Wiring.
Import Net Game.

(** The buttons the script binds by identifier; [false] when the page has
    no such button. *)
Record buttons := {
  has_start_outreach : bool;
  has_start_coffee : bool;
  has_start_followup : bool;
  has_start_reciprocity : bool;
  has_close_quest : bool;
  has_score_quest : bool;
  has_open_coach : bool;
  has_coach_close : bool;
  has_coach_send : bool }.

(** The page from the call of [init] on: the world, the requests [init]
    still waits for, and whether the handlers are wired. *)
Record session := {
  now : world;
  awaited : list nat;
  wired : bool }.

(** [byId(id)] for its message only, and the check of [bind]. *)
Definition look (present : bool) (id : string) (w : world) : world :=
  if present then w else log ("[game] missing #" +:+ id) w.

Definition bind (present : bool) (id : string) (w : world) : world :=
  if present then w else log ("[game] missing button #" +:+ id) w.

Definition unpress (p : pill) : pill :=
  {| data_choice := data_choice p; active := active p; aria_pressed := false |}.

(** [wireQuests()] *)
Definition wireQuests (pg : page) (bt : buttons) (w : world) : world :=
  let w := look (has_quest_modal pg) "quest-modal" w in
  let w := look (has_quest_title pg) "quest-title" w in
  let w := look (has_quest_prompt pg) "quest-prompt" w in
  let w := look (has_quest_text pg) "quest-text" w in
  let w := look (has_score_result pg) "score-result" w in
  let w := look (has_followup_choices pg) "followup-choices" w in
  let w := bind (has_start_outreach bt) "start-outreach" w in
  let w := bind (has_start_coffee bt) "start-coffee" w in
  let w := bind (has_start_followup bt) "start-followup" w in
  let w := bind (has_start_reciprocity bt) "start-reciprocity" w in
  let w := bind (has_close_quest bt) "close-quest" w in
  let w := with_quest_view (fun q => set_pills (map unpress (pills q)) q) w in
  bind (has_score_quest bt) "score-quest" w.

(** [wireCoach()]; [onClick] looks its button up with [byId]. *)
Definition wireCoach (pg : page) (bt : buttons) (w : world) : world :=
  let w := look (has_coach_modal pg) "coach-modal" w in
  let w := look (has_coach_feed pg) "coach-feed" w in
  let w := look (has_coach_input pg) "coach-input" w in
  let w := look (has_coach_status pg) "coach-status" w in
  let w := look (has_open_coach bt) "open-coach" w in
  let w := look (has_coach_close bt) "coach-close" w in
  look (has_coach_send bt) "coach-send" w.

(** What [init] does once both functions have finished; [wireTasks] does
    nothing. *)
Definition wire (pg : page) (bt : buttons) (w : world) : world :=
  log "[game] ready" (wireCoach pg bt (wireQuests pg bt w)).

(** [init()] up to its [await]: [loadLeaderboard()], then [loadState()]. *)
Definition init (w : world) : session :=
  {| now := loadState (loadLeaderboard w);
     awaited := [length (sent w); S (length (sent w))];
     wired := false |}.

(** The clicks that need a handler bound by [wireQuests] or [wireCoach],
    and whether the button of the click is on the page. *)
Definition needs_wiring (e : event) : bool :=
  match e with
  | ClickStart _ | ClickCloseQuest | ClickPill _ | ClickScoreQuest
  | ClickOpenCoach | ClickCoachClose | ClickCoachSend => true
  | _ => false
  end.

Definition button_there (bt : buttons) (e : event) : bool :=
  match e with
  | ClickStart outreach => has_start_outreach bt
  | ClickStart coffee => has_start_coffee bt
  | ClickStart followup => has_start_followup bt
  | ClickStart reciprocity => has_start_reciprocity bt
  | ClickCloseQuest => has_close_quest bt
  | ClickScoreQuest => has_score_quest bt
  | ClickOpenCoach => has_open_coach bt
  | ClickCoachClose => has_coach_close bt
  | ClickCoachSend => has_coach_send bt
  | _ => true
  end.

(** One event of the page.  The response of a request [init] waits for lets
    the function that sent it finish; when none is left, the handlers are
    wired. *)
Definition react (pg : page) (bt : buttons) (e : event) (s : session) : session :=
  match e with
  | Response i _ =>
      let w := step pg e (now s) in
      if bool_decide (i ∈ awaited s) && bool_decide (i ∈ pending (now s)) then
        match filter (fun j => j ≠ i) (awaited s) with
        | [] => {| now := wire pg bt w; awaited := []; wired := true |}
        | rest => {| now := w; awaited := rest; wired := wired s |}
        end
      else {| now := w; awaited := awaited s; wired := wired s |}
  | _ =>
      if needs_wiring e && negb (wired s && button_there bt e) then s
      else {| now := step pg e (now s); awaited := awaited s;
              wired := wired s |}
  end.

Definition play (pg : page) (bt : buttons) (es : list event) (s : session) : session :=
  fold_left (fun s e => react pg bt e s) es s.

(** A page with every button. *)
Definition all_buttons : buttons :=
  {| has_start_outreach := true; has_start_coffee := true;
     has_start_followup := true; has_start_reciprocity := true;
     has_close_quest := true; has_score_quest := true;
     has_open_coach := true; has_coach_close := true;
     has_coach_send := true |}.

End Wiring.

(** ** static/networkinggamescript.js: loading and saving

    [loadState], [loadProgress] and [saveProgress] from the arrival of the
    response of their request ([GET /get_state], [GET /load], [POST /save];
    the requests carry no data).  None of them catches an error. *)

Module LegacyLoad.
Import Net Legacy.

(** [loadState] and [loadProgress]: [renderState(await res.json())]. *)
Definition after_load (r : response) (w : world) : world :=
  match r with
  | Rejected | Replied _ NotJson | Replied _ Null => w
  | Replied _ (Array _) => with_page (renderState no_fields) w
  | Replied _ (Object o) => with_page (renderState o) w
  end.

Definition after_loadState : response -> world -> world := after_load.

Definition after_loadProgress : response -> world -> world := after_load.

(** [saveProgress]: the body of the response is not read. *)
Definition after_saveProgress (r : response) (w : world) : world :=
  match r with
  | Rejected => w
  | Replied _ _ => alert "Progress saved!" w
  end.

End LegacyLoad.

(** * The vocabulary of the properties *)

Section Vocabulary.
Import Net Game.




(** What the coach answers to a response, in the words of the
    specification: the reply when there is one, else a fixed apology. *)
Definition answers (r : response) (answer : string) : Prop :=
  match r with
  | Replied _ (Object o) =>
      match reply o with
      | Some s => if Js.nonempty s then answer = s
                  else answer = "Sorry, no reply."
      | None => answer = "Sorry, no reply."
      end
  | Replied _ (Array _) => answer = "Sorry, no reply."
  | _ => answer = "I hit a snag. Try again."
  end.

(** [kept w w']: nothing the status depends on differs between [w] and
    [w']. *)
Definition kept (w w' : world) : Prop :=
  modal_display (quest_view w') = modal_display (quest_view w)
  /\ awaiting is_start w' = awaiting is_start w
  /\ awaiting is_score w' = awaiting is_score w.

(** How the status may change with one event: it stays, a quest is opened
    (from any status), the modal is closed (from any status), the scenario
    arrives, a score is asked for, the score arrives.  [loaded_scoring] is
    the arrival of the scenario while a score request, sent during loading,
    is still in flight. *)
Inductive transition : event -> session_status -> session_status -> Prop :=
| stays e s : transition e s s
| opened t s : transition (ClickStart t) s Loading
| closed s : transition ClickCloseQuest s Closed
| loaded i r : transition (Response i r) Loading Active
| loaded_scoring i r : transition (Response i r) Loading Scoring
| scoring : transition ClickScoreQuest Active Scoring
| scored i r : transition (Response i r) Scoring Active.

(** ** Worlds and payloads of the examples *)

(** A progress state with 145 points and one open daily task, and the state
    the server returns once that task is completed. *)
Definition state_145 : object :=
  {| points := Some 145; streak := Some 3; level := Some "Connector";
     badges := Some ["badge_coffee_chat"];
     tasks := Some [ {| task_id := "t1"; description := "Say hello";
                        task_points := 10; category := "daily";
                        completed := false |} ];
     error := None; scenario_prompt := None; earned := None; tips := None;
     reply := None |}.

Definition state_155 : object :=
  {| points := Some 155; streak := Some 3; level := Some "Connector";
     badges := Some ["badge_coffee_chat"];
     tasks := Some [ {| task_id := "t1"; description := "Say hello";
                        task_points := 10; category := "daily";
                        completed := true |} ];
     error := None; scenario_prompt := None; earned := None; tips := None;
     reply := None |}.

(** The page once the state with 145 points and the open task [t1] has been
    loaded. *)
Definition loaded_145 : world :=
  after_state full_page (Replied true (Object state_145)) (boot []).

(** The bodies of a scenario and of an error response. *)
Definition scenario_reply : object :=
  {| points := None; streak := None; level := None; badges := None;
     tasks := None; error := None;
     scenario_prompt := Some "Introduce yourself to a recruiter.";
     earned := None; tips := None; reply := None |}.

Definition error_reply : object :=
  {| points := None; streak := None; level := None; badges := None;
     tasks := None; error := Some "scoring unavailable";
     scenario_prompt := None; earned := None; tips := None; reply := None |}.

(** The body of an answer of the coach. *)
Definition coach_reply : object :=
  {| points := None; streak := None; level := None; badges := None;
     tasks := None; error := None; scenario_prompt := None;
     earned := None; tips := None;
     reply := Some "Lead with a <question>." |}.

(** An open quest with a draft, its score asked for. *)
Definition score_asked : world :=
  run full_page
    [ ClickStart outreach; Response 0 (Replied true (Object scenario_reply));
      EditQuestText "Hello"; ClickScoreQuest ]
    (boot []).

(** The coach input holds two spaces; it holds a message between spaces. *)
Definition typed_spaces : world :=
  step full_page (EditCoachInput "  ") (boot []).

Definition typed_hello : world :=
  step full_page (EditCoachInput " hello ") (boot []).

(** A page with two follow-up chips. *)
Definition two_chips : world := boot [Some "Monday"; Some "48h"].

(** ** Requests *)

(** A response that brings nothing: the request never completed, or its
    body cannot be read. *)
Definition unreadable (r : response) : Prop :=
  r = Rejected \/ exists ok, r = Replied ok NotJson.

(** Two worlds that differ on the progress part and on the console at
    most. *)
Definition off_view (w w' : world) : Prop :=
  board w' = board w
  /\ quest_view w' = quest_view w
  /\ coach w' = coach w
  /\ currentQuest w' = currentQuest w
  /\ alerts w' = alerts w
  /\ sent w' = sent w
  /\ pending w' = pending w.

(** ** The selected choice *)

(** The chips carry the choices [choices], and [currentQuest.choice] is
    empty or one of them. *)
Definition choice_from (choices : list (option string)) (w : world) : Prop :=
  map data_choice (pills (quest_view w)) = choices
  /\ (choice (currentQuest w) = EmptyString
      \/ Some (choice (currentQuest w)) ∈ choices).

(** ** Characters of a text *)

(** The character with this code occurs in the string. *)
Fixpoint occurs (n : N) (s : string) : bool :=
  match s with
  | EmptyString => false
  | String c r => (Js.code c =? n)%N || occurs n r
  end.

(** The characters that open or close a tag or an attribute value:
    the two angle brackets and the two quotes. *)
Definition is_markup (n : N) : bool :=
  ((n =? 60) || (n =? 62) || (n =? 34) || (n =? 39))%N.

(** The texts of the task are free of the characters that [renderTasks],
    which does not escape them, would let reach the markup of the button:
    no [<] in the description, which comes before the button in the row,
    and no double quote in the identifier, which is the value of the
    attribute [data-id] of the button. *)
Definition plain_task (t : task) : Prop :=
  occurs 60 (description t) = false /\ occurs 34 (task_id t) = false.

End Vocabulary.

(** * Properties *)

Local Open Scope list_scope.

(** ** Strings *)

Section StringFacts.

Lemma trim_start_white_space (w s : string) :
  In w Js.white_space -> Js.trim_start (w +:+ s) = Js.trim_start s.
Proof.
  unfold Js.white_space. cbn [map Js.bytes fold_right In].
  intros H.
  repeat (destruct H as [<- | H]; [reflexivity |]).
  destruct H.
Qed.

Lemma trim_start_blank (s : string) : Js.blank s -> Js.trim_start s = EmptyString.
Proof.
  induction 1 as [| w s Hw _ IH]; [reflexivity |].
  rewrite trim_start_white_space by assumption. exact IH.
Qed.

Lemma trim_blank (s : string) : Js.blank s -> Js.trim s = EmptyString.
Proof.
  intros H. unfold Js.trim. rewrite (trim_start_blank s H). reflexivity.
Qed.

(** The two regular-expression replacements of [prettyBadge], seen as the
    capitalisation of each word. *)
Lemma upper_at_boundaries_pieces (s : string) (prev : bool) :
  Js.upper_at_boundaries prev s =
  Badge.join
    match Badge.pieces s with
    | Badge.Word w :: ps =>
        Badge.Word (if prev then w else Badge.capitalize w)
          :: map Badge.capitalize_piece ps
    | ps => map Badge.capitalize_piece ps
    end.
Proof.
  revert prev. induction s as [| c r IH]; intros prev; [reflexivity |].
  cbn [Js.upper_at_boundaries Badge.pieces].
  rewrite IH. destruct (Js.is_word c) eqn:Hc.
  - destruct (Badge.pieces r) as [| [w | d] ps]; destruct prev; reflexivity.
  - rewrite andb_false_l.
    destruct (Badge.pieces r) as [| [w | d] ps]; reflexivity.
Qed.

Lemma title_case_capitalizes (id : string) :
  Badge.title_case id =
  Badge.capitalize_each_word (Js.underscores_to_spaces id).
Proof.
  unfold Badge.title_case, Badge.capitalize_each_word.
  rewrite upper_at_boundaries_pieces.
  destruct (Badge.pieces _) as [| [w | d] ps]; reflexivity.
Qed.

End StringFacts.

(** ** Badge labels *)

Section BadgeFacts.
Import Badge.

Lemma labels_nonempty (id label : string) :
  BADGE_LABELS !! id = Some label -> Js.nonempty label = true.
Proof.
  unfold BADGE_LABELS. cbn [list_to_map foldr uncurry fst snd].
  intros H.
  repeat (apply lookup_insert_Some in H as [[_ <-] | [_ H]]; [reflexivity |]).
  rewrite lookup_empty in H. discriminate.
Qed.

(** A badge of the table gets the label of the table. *)
Lemma prettyBadge_known (id label : string) :
  BADGE_LABELS !! id = Some label -> prettyBadge id = Str label.
Proof.
  intros H. unfold prettyBadge, get. rewrite H. cbn [truthy].
  rewrite (labels_nonempty id label H). reflexivity.
Qed.

(** A badge that is neither in the table nor the name of a property of
    [Object.prototype] has each word of its identifier capitalised. *)
Lemma prettyBadge_unknown (id : string) :
  BADGE_LABELS !! id = None -> id ∉ Object_prototype ->
  prettyBadge id = Str (capitalize_each_word (Js.underscores_to_spaces id)).
Proof.
  intros Hnone Hproto. unfold prettyBadge, get. rewrite Hnone.
  rewrite bool_decide_eq_false_2 by assumption. cbn [truthy].
  rewrite title_case_capitalizes. reflexivity.
Qed.

(** A badge named like a property of [Object.prototype] gets the built-in
    value of that property. *)
Lemma prettyBadge_inherited (id : string) :
  id ∈ Object_prototype -> prettyBadge id = Builtin id.
Proof.
  unfold Object_prototype. intros H.
  repeat (apply elem_of_cons in H as [-> | H]; [vm_compute; reflexivity |]).
  apply elem_of_nil in H. destruct H.
Qed.

Example prettyBadge_first_connection :
  prettyBadge "badge_first_connection" = Str "🛰️ First Contact".
Proof. vm_compute. reflexivity. Qed.

Example prettyBadge_custom_thing :
  prettyBadge "badge_custom_thing" = Str "Badge Custom Thing".
Proof. vm_compute. reflexivity. Qed.

(** C9: [prettyBadge] returns the label of the table for a badge of the table,
    and the identifier with underscores turned into spaces and each word
    capitalised for the unknown badge [badge_custom_thing]; but for the
    unknown badge [constructor], a name every object inherits from
    [Object.prototype], the lookup in the table finds the built-in function
    and [prettyBadge] returns it instead of the text [Constructor]. *)
Theorem prettyBadge_inherited_name :
  BADGE_LABELS !! "constructor" = None
  /\ prettyBadge "constructor" = Builtin "constructor"
  /\ prettyBadge "constructor"
     <> Str (capitalize_each_word (Js.underscores_to_spaces "constructor"))
  /\ capitalize_each_word (Js.underscores_to_spaces "constructor") = "Constructor".
Proof. vm_compute. repeat split; discriminate. Qed.

End BadgeFacts.

(** ** The progress bar *)

Section ProgressBar.
Import Net Game.

Lemma rem_percentage (p : Z) :
  0 <= p -> Z.min 100 (Js.rem p 100) = p mod 100 /\ 0 <= p mod 100 <= 99.
Proof.
  intros Hp. unfold Js.rem. rewrite Z.rem_mod_nonneg by lia.
  pose proof (Z.mod_pos_bound p 100 ltac:(lia)). lia.
Qed.

(** The later steps of [render_state] leave the progress bar alone. *)
Lemma render_state_xp_bar (pg : page) (o : object) (w : world) :
  has_xp_bar pg = true ->
  xp_bar_width (view (render_state pg o w)) =
  xp_width (number_or_zero (points o)).
Proof.
  intros Hbar. unfold render_state, renderTasks, render_badges, setWidth,
    setText, byId.
  rewrite Hbar.
  destruct (has_points pg), (has_streak pg), (has_level_name pg),
    (has_badges pg), (has_daily_list pg), (has_weekly_list pg); reflexivity.
Qed.

(** C7: for every points value that is not negative, the width of the
    progress bar written by [loadState] ([static/gamescript.js]) and the
    width and the label written by [renderState]
    ([static/networkinggamescript.js]) show [points mod 100], a number
    between 0 and 99. *)
Theorem progress_percentage (pg : page) (o : object) (p : Z) (w : world) :
  0 <= p -> points o = Some p -> has_xp_bar pg = true ->
  xp_bar_width (view (after_state pg (Replied true (Object o)) w))
    = Js.of_Z (p mod 100) +:+ "%"
  /\ Legacy.pct o = Some (p mod 100)
  /\ Legacy.bar_width (Legacy.renderState o) = Js.of_Z (p mod 100) +:+ "%"
  /\ Legacy.bar_text (Legacy.renderState o)
     = Js.of_Z (p mod 100) +:+ "% to Next Level"
  /\ 0 <= p mod 100 <= 99.
Proof.
  intros Hp Ho Hbar. destruct (rem_percentage p Hp) as [Hmin Hrange].
  cbn [after_state]. rewrite render_state_xp_bar by assumption.
  unfold xp_width, Legacy.renderState, Legacy.pct_text, Legacy.pct.
  cbn [Legacy.bar_width Legacy.bar_text]. rewrite Ho.
  unfold number_or_zero. cbn [default from_option id]. rewrite Hmin.
  unfold Js.rem. rewrite Z.rem_mod_nonneg by lia.
  repeat split; try reflexivity; lia.
Qed.

Lemma progress_percentage_145 :
  xp_bar_width
    (view (after_state full_page (Replied true (Object state_145)) (boot [])))
    = "45%"
  /\ Legacy.bar_text (Legacy.renderState state_145) = "45% to Next Level".
Proof.
  destruct (progress_percentage full_page state_145 145 (boot []))
    as (H1 & _ & _ & H2 & _); [lia | reflexivity | reflexivity |].
  split; [exact H1 | exact H2].
Defined.

End ProgressBar.

(** ** Coach chat *)

Section Coach.
Import Net Game.

(** C10: a click on the send button of the coach while the input is empty
    or holds white space only changes nothing: no message is added to the
    feed, no request is issued and the status line is not touched. *)
Theorem coachSend_blank_is_noop (pg : page) (w : world) :
  Js.blank (input (coach w)) -> step pg ClickCoachSend w = w.
Proof.
  intros Hblank. cbn [step]. unfold coachSend, coachSend_effects.
  rewrite (trim_blank _ Hblank). cbn [Js.nonempty].
  destruct (coach_ok pg); reflexivity.
Qed.

Lemma coachSend_blank_is_noop_spaces :
  Js.blank (input (coach typed_spaces))
  /\ step full_page ClickCoachSend typed_spaces = typed_spaces.
Proof.
  assert (H : Js.blank (input (coach typed_spaces))).
  { change (Js.blank (" " +:+ (" " +:+ EmptyString))).
    apply Js.blank_more; [vm_compute; tauto |].
    apply Js.blank_more; [vm_compute; tauto |].
    apply Js.blank_empty. }
  split; [exact H |].
  apply (coachSend_blank_is_noop full_page typed_spaces H).
Defined.

Lemma after_coachChat_feed (r : response) (w : world) :
  exists answer,
    answers r answer
    /\ feed (coach (after_coachChat r w))
       = feed (coach w) ++ [message assistant answer]
    /\ status (coach (after_coachChat r w)) = EmptyString.
Proof.
  unfold after_coachChat.
  destruct r as [| ok [| | rows | o]]; cbn [answers];
    try (eexists; repeat split; reflexivity).
  unfold Js.or_else. destruct (reply o) as [s |].
  - destruct (Js.nonempty s); eexists; repeat split; reflexivity.
  - eexists; repeat split; reflexivity.
Qed.

(** C6: a click on the send button with a message that is not blank runs
    [push], the status line, the input and [fetch] in that order.  At the
    moment the handler calls [fetch] (whatever was run before it is [pre])
    the feed already ends with the entry of the user, which is
    [<b>You:</b> ] followed by the escaped message, the pending indicator
    reads [Thinking…], and no request has gone out yet; the request
    carries the trimmed message and is the last thing the click does.  When
    the response of that request arrives, exactly one entry of the coach is
    added at the end of the feed, [<b>Coach:</b> ] followed by the escaped
    answer (the reply when there is one, a fixed apology otherwise), and
    the indicator is cleared. *)
Theorem coach_send_exchange (pg : page) (w : world) (txt : string) :
  coach_ok pg = true ->
  Js.trim (input (coach w)) = txt ->
  Js.nonempty txt = true ->
  step pg ClickCoachSend w = perform_all (coachSend_effects pg w) w
  /\ (exists pre, coachSend_effects pg w = pre ++ [Fetch (PostCoachChat txt)])
  /\ (forall pre req post,
        coachSend_effects pg w = pre ++ Fetch req :: post ->
        req = PostCoachChat txt
        /\ post = []
        /\ feed (coach (perform_all pre w))
           = feed (coach w) ++ ["<b>You:</b> " +:+ escapeHtml txt]
        /\ status (coach (perform_all pre w)) = "Thinking…"
        /\ sent (perform_all pre w) = sent w
        /\ pending (perform_all pre w) = pending w)
  /\ feed (coach (step pg ClickCoachSend w))
     = feed (coach w) ++ ["<b>You:</b> " +:+ escapeHtml txt]
  /\ status (coach (step pg ClickCoachSend w)) = "Thinking…"
  /\ sent (step pg ClickCoachSend w) = sent w ++ [PostCoachChat txt]
  /\ forall (later : world) (i : nat) (r : response),
      sent later !! i = Some (PostCoachChat txt) ->
      i ∈ pending later ->
      exists answer,
        answers r answer
        /\ feed (coach (step pg (Response i r) later))
           = feed (coach later) ++ ["<b>Coach:</b> " +:+ escapeHtml answer]
        /\ status (coach (step pg (Response i r) later)) = EmptyString
        /\ i ∉ pending (step pg (Response i r) later).
Proof.
  intros Hok Htxt Hne.
  assert (Heff : coachSend_effects pg w
                 = [ Push user txt; SetStatus "Thinking…"; SetInput "";
                     Fetch (PostCoachChat txt) ]).
  { unfold coachSend_effects. rewrite Hok, Htxt, Hne. reflexivity. }
  split; [reflexivity |].
  split.
  { exists [Push user txt; SetStatus "Thinking…"; SetInput ""].
    rewrite Heff. reflexivity. }
  split.
  { intros pre req post Hsplit. rewrite Heff in Hsplit.
    destruct pre as [| e1 [| e2 [| e3 [| e4 pre]]]]; cbn [app] in Hsplit.
    - discriminate Hsplit.
    - discriminate Hsplit.
    - discriminate Hsplit.
    - injection Hsplit as <- <- <- <- <-.
      repeat split; reflexivity.
    - exfalso. injection Hsplit as _ _ _ _ Hrest.
      destruct pre; discriminate Hrest. }
  cbn [step]. unfold coachSend. rewrite Heff.
  split; [reflexivity |]. split; [reflexivity |]. split; [reflexivity |].
  intros later i r Hsent Hpend. unfold receive.
  rewrite bool_decide_eq_true_2 by assumption. rewrite Hsent.
  destruct (after_coachChat_feed r (settle i later)) as (a & Ha & Hf & Hs).
  exists a. split; [exact Ha | split; [exact Hf | split; [exact Hs |]]].
  assert (Hp : pending (after_coachChat r (settle i later))
               = filter (fun j => j ≠ i) (pending later)).
  { destruct r as [| ok [| | rows | o]]; reflexivity. }
  rewrite Hp. intros Hin. apply list_elem_of_filter in Hin as [Hneq _].
  congruence.
Qed.

Lemma coach_send_exchange_hello :
  feed (coach (step full_page ClickCoachSend typed_hello))
    = ["<b>You:</b> hello"]
  /\ status (coach (step full_page ClickCoachSend typed_hello)) = "Thinking…"
  /\ sent (step full_page ClickCoachSend typed_hello) = [PostCoachChat "hello"]
  /\ feed (coach (step full_page (Response 0 (Replied true (Object coach_reply)))
                    (step full_page ClickCoachSend typed_hello)))
     = ["<b>You:</b> hello"; "<b>Coach:</b> Lead with a &lt;question&gt;."].
Proof.
  destruct (coach_send_exchange full_page typed_hello "hello")
    as (_ & _ & _ & Hfeed & Hstatus & Hsent & Hlater);
    [reflexivity | reflexivity | reflexivity |].
  split; [exact Hfeed |]. split; [exact Hstatus |]. split; [exact Hsent |].
  destruct (Hlater (step full_page ClickCoachSend typed_hello) 0%nat
              (Replied true (Object coach_reply)))
    as (answer & Hanswer & Hcoach & _); [reflexivity | | ].
  { vm_compute. apply list_elem_of_here. }
  cbn in Hanswer. subst answer. rewrite Hcoach, Hfeed. reflexivity.
Defined.

End Coach.

(** ** The guard of the quest handlers *)

Section Guard.
Import Game.

Lemma ensureModal_present (pg : page) (w : world) :
  ensureModal_ok pg = true -> ensureModal pg w = (true, w).
Proof.
  unfold ensureModal_ok, ensureModal.
  destruct (has_quest_modal pg), (has_quest_title pg), (has_quest_prompt pg),
    (has_quest_text pg), (has_score_result pg), (has_followup_choices pg);
    (discriminate || reflexivity).
Qed.

Lemma ensureModal_missing (pg : page) (w : world) :
  ensureModal_ok pg = false ->
  ensureModal pg w
  = (false,
     alert "Quest UI is missing in HTML. Add the Quest Modal block with required IDs."
       (log "[game] quest modal pieces missing" w)).
Proof.
  unfold ensureModal_ok, ensureModal.
  destruct (has_quest_modal pg), (has_quest_title pg), (has_quest_prompt pg),
    (has_quest_text pg), (has_score_result pg), (has_followup_choices pg);
    (discriminate || reflexivity).
Qed.

End Guard.

(** ** Follow-up choices *)

Section Choices.
Import Net Game.

Lemma run_snoc (pg : page) (es : list event) (e : event) (w : world) :
  run pg (es ++ [e]) w = step pg e (run pg es w).
Proof. unfold run. rewrite fold_left_app. reflexivity. Qed.

(** Among the chips pressed by a click on the chip at position [b], counted
    from position [k] on, one is active when [b] is in range, none
    otherwise. *)
Lemma pressed_count (l : list pill) (k b : nat) :
  length (filter (fun p => active p = true)
            (imap (fun j p => press (bool_decide (k + j = b)%nat) p) l))
  = if bool_decide (k <= b < k + length l)%nat then 1%nat else 0%nat.
Proof.
  revert k. induction l as [| p l IH]; intros k.
  - cbn. rewrite bool_decide_eq_false_2 by lia. reflexivity.
  - cbn [imap]. rewrite filter_cons. cbn [press active].
    rewrite (imap_ext _ (fun j q => press (bool_decide (S k + j = b)%nat) q))
      by (intros j q _; cbn; f_equal; apply bool_decide_ext; lia).
    destruct (decide (k = b)) as [-> | Hkb].
    + rewrite Nat.add_0_r, bool_decide_eq_true_2 by reflexivity.
      rewrite decide_True by reflexivity. cbn [length].
      rewrite IH, bool_decide_eq_false_2 by lia.
      rewrite bool_decide_eq_true_2 by lia. reflexivity.
    + rewrite Nat.add_0_r, (bool_decide_eq_false_2 (k = b)) by assumption.
      rewrite decide_False by discriminate.
      rewrite IH. cbn [length].
      rewrite (bool_decide_ext (S k <= b < S k + length l)%nat
                 (k <= b < k + S (length l))%nat) by lia.
      reflexivity.
Qed.

Lemma choosePill_pills (w : world) (b : nat) (btn : pill) :
  pills (quest_view w) !! b = Some btn ->
  pills (quest_view (choosePill b w))
    = imap (fun j p => press (bool_decide (j = b)) p) (pills (quest_view w))
  /\ choice (currentQuest (choosePill b w)) = Js.or_else (data_choice btn) EmptyString.
Proof.
  intros Hb. unfold choosePill. rewrite Hb. split; reflexivity.
Qed.

(** C8: whatever happened before, after a click on the follow-up chip [b]
    exactly one chip is marked (active and pressed), namely [b], and
    [currentQuest.choice] is the choice of [b]; and the score handler sends
    its request also when no choice is selected. *)
Theorem choice_is_exclusive (pg : page) (es : list event) (w : world)
    (b : nat) (btn : pill) :
  pills (quest_view (run pg es w)) !! b = Some btn ->
  let w' := run pg (es ++ [ClickPill b]) w in
  (forall j p, pills (quest_view w') !! j = Some p ->
     active p = bool_decide (j = b) /\ aria_pressed p = bool_decide (j = b))
  /\ length (filter (fun p => active p = true) (pills (quest_view w'))) = 1%nat
  /\ choice (currentQuest w') = Js.or_else (data_choice btn) EmptyString
  /\ forall v : world,
       ensureModal_ok pg = true -> choice (currentQuest v) = EmptyString ->
       sent (step pg ClickScoreQuest v)
       = sent v ++ [PostQuestScore (type (currentQuest v))
                      (text (quest_view v)) EmptyString].
Proof.
  intros Hb w'. subst w'. rewrite run_snoc. cbn [step].
  destruct (choosePill_pills _ _ _ Hb) as [Hpills Hchoice].
  rewrite Hpills. split; [| split; [| split]].
  - intros j p Hj. rewrite list_lookup_imap in Hj.
    destruct (pills (quest_view (run pg es w)) !! j); [| discriminate].
    cbn in Hj. injection Hj as <-. split; reflexivity.
  - rewrite (pressed_count _ 0 b).
    apply lookup_lt_Some in Hb.
    rewrite bool_decide_eq_true_2 by lia. reflexivity.
  - exact Hchoice.
  - intros v Hok Hnone. unfold scoreQuest.
    rewrite (ensureModal_present pg v Hok), Hnone. reflexivity.
Qed.

Lemma choice_is_exclusive_monday_then_48h :
  map active (pills (quest_view (run full_page [ClickPill 0; ClickPill 1] two_chips)))
    = [false; true]
  /\ choice (currentQuest (run full_page [ClickPill 0; ClickPill 1] two_chips))
     = "48h".
Proof.
  destruct (choice_is_exclusive full_page [ClickPill 0] two_chips 1
              {| data_choice := Some "48h"; active := false;
                 aria_pressed := false |})
    as (_ & _ & Hchoice & _); [reflexivity |].
  split; [reflexivity | exact Hchoice].
Defined.

End Choices.

(** ** The quest session *)

Section Session.
Import Net Game.

(** [awaiting] looks at the requests only. *)
Lemma awaiting_ext (kind : request -> bool) (w w' : world) :
  sent w' = sent w -> pending w' = pending w ->
  awaiting kind w' = awaiting kind w.
Proof. unfold awaiting. intros -> ->. reflexivity. Qed.

Lemma lookup_sent_snoc (l : list request) (r : request) (j : nat) :
  j ≠ length l -> (l ++ [r]) !! j = l !! j.
Proof.
  intros Hj. destruct (decide (j < length l)%nat) as [Hlt | Hge].
  - apply lookup_app_l. exact Hlt.
  - rewrite !lookup_ge_None_2; [reflexivity | lia |].
    rewrite length_app. cbn [length]. lia.
Qed.

(** A new request is awaited from the moment it is sent. *)
Lemma awaiting_fetch (kind : request -> bool) (r : request) (w : world) :
  awaiting kind (fetch r w) = awaiting kind w || kind r.
Proof.
  unfold awaiting. cbn [fetch sent pending].
  rewrite existsb_app. cbn [existsb].
  rewrite list_lookup_middle by reflexivity. cbn [from_option].
  rewrite orb_false_r.
  induction (pending w) as [| j l IH]; [reflexivity |].
  cbn [existsb]. rewrite <- !orb_assoc, IH. clear IH.
  destruct (decide (j = length (sent w))) as [-> | Hj].
  - rewrite list_lookup_middle by reflexivity.
    rewrite lookup_ge_None_2 by lia. cbn [from_option].
    destruct (kind r); [| reflexivity].
    cbn [orb]. rewrite orb_true_r. reflexivity.
  - rewrite lookup_sent_snoc by assumption. reflexivity.
Qed.

(** Receiving a response makes no request awaited that was not. *)
Lemma awaiting_settle (kind : request -> bool) (i : nat) (w : world) :
  awaiting kind (settle i w) = true -> awaiting kind w = true.
Proof.
  unfold awaiting. cbn [settle with_pending sent pending].
  rewrite !existsb_exists. intros (j & Hin & Hj).
  exists j. split; [| exact Hj].
  apply list_elem_of_In. apply list_elem_of_In in Hin.
  apply list_elem_of_filter in Hin as [_ Hin]. exact Hin.
Qed.


Lemma kept_status (w w' : world) : kept w w' -> status_of w' = status_of w.
Proof. intros (Hm & Hs & Hc). unfold status_of. rewrite Hm, Hs, Hc. reflexivity. Qed.

Lemma kept_refl (w : world) : kept w w.
Proof. repeat split. Qed.

Lemma kept_fetch r (w v : world) :
  is_start r = false -> is_score r = false ->
  kept w v -> kept w (fetch r v).
Proof.
  intros Hs Hc (Hm & Hst & Hsc). repeat split.
  - exact Hm.
  - rewrite awaiting_fetch, Hs, orb_false_r. exact Hst.
  - rewrite awaiting_fetch, Hc, orb_false_r. exact Hsc.
Qed.

(** Writing on the page, logging and alerting touch neither the display of
    the modal nor the requests: [kept w (f v)] is then [kept w v] by
    computation. *)
Lemma kept_render_state (pg : page) (o : object) (w v : world) :
  kept w v -> kept w (render_state pg o v).
Proof.
  intros H. unfold render_state, renderTasks, render_badges, setWidth,
    setText, byId.
  destruct (has_points pg), (has_streak pg), (has_level_name pg),
    (has_xp_bar pg), (has_badges pg), (has_daily_list pg),
    (has_weekly_list pg); exact H.
Qed.

Lemma kept_refresh (w v : world) : kept w v -> kept w (refresh v).
Proof.
  intros H. unfold refresh, loadLeaderboard, loadState.
  apply kept_fetch; [reflexivity | reflexivity |].
  apply kept_fetch; [reflexivity | reflexivity |]. exact H.
Qed.

(** The continuations leave the modal and the requests of the quest as
    they are. *)
Lemma kept_continuations (pg : page) (r : response) (w v : world) :
  kept w v ->
  kept w (after_leaderboard pg r v) /\ kept w (after_state pg r v)
  /\ kept w (after_completeTask r v) /\ kept w (after_questStart r v)
  /\ kept w (after_questScore r v) /\ kept w (after_coachChat r v).
Proof.
  intros H.
  unfold after_leaderboard, after_state, after_completeTask,
    after_questStart, after_questScore, after_coachChat, could_not_score, push.
  destruct r as [| [|] [| | [| r1 rs] | o]], (has_leaderboard_body pg);
    repeat match goal with |- _ /\ _ => split end;
    first [ exact H
          | apply kept_refresh; exact H
          | apply kept_render_state; exact H ].
Qed.

Lemma kept_transition (e : event) (w w' : world) :
  kept w w' -> transition e (status_of w) (status_of w').
Proof. intros H. rewrite (kept_status w w' H). apply stays. Qed.

Lemma response_transition (i : nat) (r : response) (w w' : world) :
  modal_display (quest_view w') = modal_display (quest_view w) ->
  (awaiting is_start w' = true -> awaiting is_start w = true) ->
  (awaiting is_score w' = true -> awaiting is_score w = true) ->
  transition (Response i r) (status_of w) (status_of w').
Proof.
  intros Hm Hs Hc. unfold status_of. rewrite Hm.
  destruct (String.eqb _ "block"); [| apply stays].
  destruct (awaiting is_start w') eqn:Hs'.
  - rewrite Hs by reflexivity. apply stays.
  - destruct (awaiting is_score w') eqn:Hc'.
    + rewrite Hc by reflexivity.
      destruct (awaiting is_start w); [apply loaded_scoring | apply stays].
    + destruct (awaiting is_start w); [apply loaded |].
      destruct (awaiting is_score w); [apply scored | apply stays].
Qed.

Lemma receive_transition (pg : page) (i : nat) (r : response) (w : world) :
  transition (Response i r) (status_of w) (status_of (receive pg i r w)).
Proof.
  unfold receive. destruct (bool_decide (i ∈ pending w)); [| apply stays].
  destruct (kept_continuations pg r (settle i w) (settle i w) (kept_refl _))
    as (H1 & H2 & H3 & H4 & H5 & H6).
  destruct (sent w !! i) as [[| | taskId | t | t txt c | txt] |];
    [| | | | | | apply stays];
    match goal with
    | |- transition _ _ (status_of ?v) =>
        assert (Hk : kept (settle i w) v) by assumption
    end;
    destruct Hk as (Hm & Hs & Hc);
    (apply response_transition;
     [ rewrite Hm; reflexivity
     | rewrite Hs; apply awaiting_settle
     | rewrite Hc; apply awaiting_settle ]).
Qed.

Lemma openQuest_requests (pg : page) (t : quest_type) (w : world) :
  ensureModal_ok pg = true ->
  sent (openQuest pg t w) = sent w ++ [PostQuestStart t]
  /\ pending (openQuest pg t w) = pending w ++ [length (sent w)]
  /\ modal_display (quest_view (openQuest pg t w)) = "block"
  /\ awaiting is_start (openQuest pg t w) = true.
Proof.
  intros Hok. unfold openQuest. rewrite (ensureModal_present pg w Hok).
  repeat split. rewrite awaiting_fetch. apply orb_true_r.
Qed.

Lemma scoreQuest_requests (pg : page) (w : world) :
  ensureModal_ok pg = true ->
  scoreQuest pg w
  = fetch (PostQuestScore (type (currentQuest w)) (text (quest_view w))
             (choice (currentQuest w))) w.
Proof.
  intros Hok. unfold scoreQuest. rewrite (ensureModal_present pg w Hok).
  reflexivity.
Qed.

(** An event that touches neither the display of the modal nor the
    requests leaves the status as it is. *)
Lemma quiet_transition (e : event) (w w' : world) :
  modal_display (quest_view w') = modal_display (quest_view w) ->
  sent w' = sent w -> pending w' = pending w ->
  transition e (status_of w) (status_of w').
Proof.
  intros Hm Hs Hp. apply kept_transition. split; [exact Hm |].
  split; apply awaiting_ext; assumption.
Qed.

Lemma step_transition (pg : page) (e : event) (w : world) :
  transition e (status_of w) (status_of (step pg e w)).
Proof.
  destruct e as [taskId | t | | i | | s | | | | s | i r]; cbn [step].
  - destruct (has_button taskId w); [| apply stays].
    apply kept_transition, kept_fetch; [reflexivity | reflexivity |].
    apply kept_refl.
  - destruct (ensureModal_ok pg) eqn:Hok.
    + destruct (openQuest_requests pg t w Hok) as (_ & _ & Hm & Hs).
      unfold status_of at 2. rewrite Hm, Hs. apply opened.
    + unfold openQuest. rewrite (ensureModal_missing pg w Hok).
      apply quiet_transition; reflexivity.
  - unfold closeQuest. destruct (has_quest_modal pg);
      [apply closed | apply stays].
  - unfold choosePill. destruct (pills (quest_view w) !! i);
      apply quiet_transition; reflexivity.
  - destruct (ensureModal_ok pg) eqn:Hok.
    + rewrite (scoreQuest_requests pg w Hok). unfold status_of.
      rewrite !awaiting_fetch. cbn [is_start is_score fetch quest_view].
      rewrite orb_false_r, orb_true_r.
      destruct (String.eqb _ "block"); [| apply stays].
      destruct (awaiting is_start w); [apply stays |].
      destruct (awaiting is_score w); [apply stays | apply scoring].
    + unfold scoreQuest. rewrite (ensureModal_missing pg w Hok).
      apply quiet_transition; reflexivity.
  - destruct (has_quest_text pg);
      apply quiet_transition; reflexivity.
  - unfold openCoach. destruct (has_coach_modal pg && coach_ok pg);
      apply quiet_transition; reflexivity.
  - unfold closeCoach. destruct (has_coach_modal pg);
      apply quiet_transition; reflexivity.
  - unfold coachSend, coachSend_effects.
    destruct (coach_ok pg); [| apply quiet_transition; reflexivity].
    destruct (Js.nonempty _); [| apply quiet_transition; reflexivity].
    apply kept_transition, kept_fetch; [reflexivity | reflexivity |].
    exact (kept_refl w).
  - destruct (has_coach_input pg);
      apply quiet_transition; reflexivity.
  - apply receive_transition.
Qed.

(** C3 (as the code has it): the script keeps no status; with the status
    read off the page, one event moves it only along
    Idle, Loading, Active, Scoring, Active, or opens a quest anew, or
    closes the modal.  The score handler never advances a session that is
    Idle: the status stays Idle and the modal and [currentQuest] are left as
    they are; but it is no no-op: when the elements of the modal are there
    it sends one score request for [currentQuest] (when one is missing it
    sends nothing). *)
Theorem status_follows_the_quest_flow (pg : page) (e : event) (w : world) :
  transition e (status_of w) (status_of (step pg e w))
  /\ (status_of w = Idle ->
      status_of (step pg ClickScoreQuest w) = Idle
      /\ currentQuest (step pg ClickScoreQuest w) = currentQuest w
      /\ quest_view (step pg ClickScoreQuest w) = quest_view w
      /\ (ensureModal_ok pg = true ->
          sent (step pg ClickScoreQuest w)
          = sent w ++ [PostQuestScore (type (currentQuest w))
                         (text (quest_view w)) (choice (currentQuest w))])
      /\ (ensureModal_ok pg = false -> sent (step pg ClickScoreQuest w) = sent w)).
Proof.
  split; [apply step_transition |].
  intros Hidle. pose proof (step_transition pg ClickScoreQuest w) as Ht.
  rewrite Hidle in Ht. split.
  - inversion Ht. cbn [step]. congruence.
  - cbn [step]. unfold scoreQuest.
    destruct (ensureModal_ok pg) eqn:Hok;
      [ rewrite (ensureModal_present pg w Hok)
      | rewrite (ensureModal_missing pg w Hok) ];
      repeat split; intros; congruence.
Qed.

Lemma status_follows_the_quest_flow_boot :
  status_of (boot []) = Idle
  /\ status_of (step full_page ClickScoreQuest (boot [])) = Idle
  /\ sent (step full_page ClickScoreQuest (boot []))
     = [PostQuestScore outreach EmptyString EmptyString].
Proof.
  destruct (status_follows_the_quest_flow full_page ClickScoreQuest (boot []))
    as (_ & H).
  destruct (H eq_refl) as (Hs & _ & _ & Hsent & _).
  split; [reflexivity | split; [exact Hs | exact (Hsent eq_refl)]].
Defined.

(** The claim C3 fails as stated: on a page with the quest modal, right
    after start-up (no quest open, status Idle), a click on the score
    button sends a request. *)
Lemma scoreQuest_while_idle_sends_request :
  status_of (boot []) = Idle
  /\ sent (step full_page ClickScoreQuest (boot [])) <> sent (boot []).
Proof. split; [reflexivity | discriminate]. Qed.

End Session.

(** ** Opening and scoring a quest *)

Section Quest.
Import Net Game.





End Quest.

Section Scoring.
Import Net Game.

(** The score request never completes or its body cannot be read: the
    local message is shown and the modal stays as it is. *)
Lemma score_request_rejected (r : response) (w : world) :
  r = Rejected \/ (exists ok, r = Replied ok NotJson)
  \/ (exists ok, r = Replied ok Null) ->
  score_result (quest_view (after_questScore r w))
    = "Could not score. Try again."
  /\ kept w (after_questScore r w)
  /\ sent (after_questScore r w) = sent w.
Proof.
  intros [-> | [[ok ->] | [ok ->]]]; repeat split.
Qed.

(** A body with the points earned: the summary, followed by the first tip
    when there is one. *)
Lemma score_summary_shown (ok : bool) (o : object) (n : Z) (w : world) :
  earned o = Some n ->
  score_result (quest_view (after_questScore (Replied ok (Object o)) w))
  = "+" +:+ Js.of_Z n +:+ " XP"
    +:+ match tips o with
        | Some (tip :: _) => " • " +:+ tip
        | _ => EmptyString
        end.
Proof.
  intros H. cbn [after_questScore]. unfold refresh, loadLeaderboard, loadState.
  cbn [fetch quest_view with_quest_view set_score_result score_result].
  unfold score_summary. rewrite H. reflexivity.
Qed.

(** Whatever its status, a response whose body is a JSON object is shown as
    a summary, never as the message that the answer could not be scored. *)
Lemma score_object_never_reported (ok : bool) (o : object) (w : world) :
  score_result (quest_view (after_questScore (Replied ok (Object o)) w))
  <> "Could not score. Try again."
  /\ sent (after_questScore (Replied ok (Object o)) w)
     = sent w ++ [GetState; GetLeaderboard].
Proof.
  split; [discriminate |].
  cbn [after_questScore]. unfold refresh, loadLeaderboard, loadState.
  cbn [fetch sent with_quest_view]. rewrite <- app_assoc. reflexivity.
Qed.

(** C5: the score request is answered with an error status and a JSON
    body that tells the error.  The handler does not look at the status: it
    shows a summary of points that are not there instead of the message that
    the answer could not be scored, and refreshes state and leaderboard.
    (The session stays Active.) *)
Theorem score_error_status_shown_as_summary :
  sent score_asked = [PostQuestStart outreach; PostQuestScore outreach "Hello" EmptyString]
  /\ status_of score_asked = Scoring
  /\ score_result
       (quest_view
          (step full_page (Response 1 (Replied false (Object error_reply)))
             score_asked))
     = "+undefined XP"
  /\ score_result
       (quest_view
          (step full_page (Response 1 (Replied false (Object error_reply)))
             score_asked))
     <> "Could not score. Try again."
  /\ sent (step full_page (Response 1 (Replied false (Object error_reply)))
             score_asked)
     = sent score_asked ++ [GetState; GetLeaderboard]
  /\ status_of
       (step full_page (Response 1 (Replied false (Object error_reply)))
          score_asked)
     = Active.
Proof. vm_compute. repeat split; discriminate. Qed.

End Scoring.

(** ** Completing a task *)

Section Completion.
Import Net Game.









(** A body [null] under an error status, and a body that cannot be read
    under a success status: the page stays as it is, no message is shown,
    the console has the only trace. *)
Example completeTask_null_or_unreadable_is_logged :
  let null_body :=
    run full_page [ClickComplete "t1"; Response 0 (Replied false Null)]
      loaded_145 in
  let unreadable_body :=
    run full_page [ClickComplete "t1"; Response 0 (Replied true NotJson)]
      loaded_145 in
  alerts null_body = [] /\ view null_body = view loaded_145
  /\ console null_body = ["[game] completeTask error:"]
  /\ alerts unreadable_body = [] /\ view unreadable_body = view loaded_145
  /\ console unreadable_body = ["[game] completeTask error:"]
  /\ sent unreadable_body = [PostCompleteTask "t1"].
Proof. vm_compute. repeat split. Qed.


End Completion.

(** * Further properties *)

(** ** Escaping and title case *)

Section Texts.
Import Game.

Lemma append_cons (c : ascii) (r t : string) :
  String c r +:+ t = String c (r +:+ t).
Proof. reflexivity. Qed.

Lemma occurs_append (n : N) (s t : string) :
  occurs n (s +:+ t) = occurs n s || occurs n t.
Proof.
  induction s as [| c r IH]; [reflexivity |].
  rewrite append_cons. cbn [occurs]. rewrite IH, orb_assoc. reflexivity.
Qed.

Lemma append_assoc (s t u : string) : (s +:+ t) +:+ u = s +:+ (t +:+ u).
Proof.
  induction s as [| c r IH]; [reflexivity |].
  rewrite !append_cons, IH. reflexivity.
Qed.

Lemma code_inj (c d : ascii) : Js.code c = Js.code d -> c = d.
Proof.
  unfold Js.code. intros H.
  rewrite <- (ascii_N_embedding c), <- (ascii_N_embedding d), H. reflexivity.
Qed.

(** What [escape_char] gives: an entity for one of the five characters,
    the character itself otherwise. *)
Lemma escape_char_cases (c : ascii) :
  (Js.code c = 38%N /\ escape_char c = "&amp;")
  \/ (Js.code c = 60%N /\ escape_char c = "&lt;")
  \/ (Js.code c = 62%N /\ escape_char c = "&gt;")
  \/ (Js.code c = 34%N /\ escape_char c = "&quot;")
  \/ (Js.code c = 39%N /\ escape_char c = "&#39;")
  \/ (Js.code c <> 38%N /\ is_markup (Js.code c) = false
      /\ escape_char c = String c EmptyString).
Proof.
  unfold escape_char, is_markup. cbv zeta.
  destruct (N.eqb_spec (Js.code c) 38) as [E | N38]; [rewrite E; tauto |].
  destruct (N.eqb_spec (Js.code c) 60) as [E | N60]; [rewrite E; tauto |].
  destruct (N.eqb_spec (Js.code c) 62) as [E | N62]; [rewrite E; tauto |].
  destruct (N.eqb_spec (Js.code c) 34) as [E | N34]; [rewrite E; tauto |].
  destruct (N.eqb_spec (Js.code c) 39) as [E | N39]; [rewrite E; tauto |].
  do 5 right. repeat split; assumption.
Qed.

(** X1: whatever the text, [escapeHtml] gives a string without angle
    brackets and without quotes, and escaping a concatenation is
    concatenating the escaped parts. *)
Theorem escapeHtml_has_no_markup (s t : string) (n : N) :
  (is_markup n = true -> occurs n (escapeHtml s) = false)
  /\ escapeHtml (s +:+ t) = escapeHtml s +:+ escapeHtml t.
Proof.
  split.
  - intros Hn. induction s as [| c r IH]; [reflexivity |].
    cbn [escapeHtml]. rewrite occurs_append, IH, orb_false_r.
    destruct (escape_char_cases c)
      as [[_ ->] | [[_ ->] | [[_ ->] | [[_ ->] | [[_ ->] | (_ & Hc & ->)]]]]];
      cbn [occurs]; rewrite ?orb_false_r.
    6: { destruct (N.eqb_spec (Js.code c) n) as [E |]; [| reflexivity].
         rewrite E in Hc. congruence. }
    all: unfold is_markup in Hn;
         repeat match type of Hn with
           | (_ || _ = true) => apply orb_prop in Hn as [Hn | Hn]
           end;
         apply N.eqb_eq in Hn; subst n; reflexivity.
  - induction s as [| c r IH]; [reflexivity |].
    rewrite append_cons. cbn [escapeHtml]. rewrite IH, append_assoc. reflexivity.
Qed.

Lemma escapeHtml_has_no_markup_tag :
  is_markup 60 = true
  /\ occurs 60 (escapeHtml "<img src=x onerror=alert(1)>") = false.
Proof.
  split; [reflexivity |].
  apply (escapeHtml_has_no_markup "<img src=x onerror=alert(1)>" EmptyString 60).
  reflexivity.
Defined.

(** X2: [escapeHtml] loses nothing: two texts with the same escaped form
    are the same text. *)
Theorem escapeHtml_injective (s t : string) :
  escapeHtml s = escapeHtml t -> s = t.
Proof.
  revert t. induction s as [| c r IH]; intros [| d r'] H.
  - reflexivity.
  - cbn [escapeHtml] in H.
    destruct (escape_char_cases d)
      as [[_ E] | [[_ E] | [[_ E] | [[_ E] | [[_ E] | (_ & _ & E)]]]]];
      rewrite E in H; discriminate H.
  - cbn [escapeHtml] in H.
    destruct (escape_char_cases c)
      as [[_ E] | [[_ E] | [[_ E] | [[_ E] | [[_ E] | (_ & _ & E)]]]]];
      rewrite E in H; discriminate H.
  - cbn [escapeHtml] in H.
    destruct (escape_char_cases c)
      as [[Hc Ec] | [[Hc Ec] | [[Hc Ec] | [[Hc Ec] | [[Hc Ec] | (Hc & _ & Ec)]]]]];
    destruct (escape_char_cases d)
      as [[Hd Ed] | [[Hd Ed] | [[Hd Ed] | [[Hd Ed] | [[Hd Ed] | (Hd & _ & Ed)]]]]];
      rewrite Ec, Ed in H; cbv [String.append] in H;
      try discriminate H;
      first
        [ (* the same entity on both sides *)
          injection H as Ht; f_equal;
          [apply code_inj; congruence | apply IH; exact Ht]
        | (* two characters that stand for themselves *)
          injection H as Hcd Ht; f_equal; [exact Hcd | apply IH; exact Ht]
        | (* an entity against a character: the character is the ampersand *)
          injection H as Hcd Ht; exfalso;
          first [apply Hd; rewrite <- Hcd | apply Hc; rewrite Hcd];
          reflexivity ].
Qed.

Lemma escapeHtml_injective_entity :
  escapeHtml ("a" +:+ "<b") = escapeHtml "a<b" /\ "a" +:+ "<b" = "a<b".
Proof.
  split; [reflexivity |].
  apply (escapeHtml_injective ("a" +:+ "<b") "a<b"). reflexivity.
Defined.

(** A text that looks like an entity and the character the entity stands
    for are told apart. *)
Example escapeHtml_keeps_entities_apart :
  escapeHtml "a&lt;b" <> escapeHtml "a<b".
Proof. discriminate. Qed.

Lemma upper_facts (c : ascii) :
  Js.is_word (Js.upper c) = Js.is_word c
  /\ Js.upper (Js.upper c) = Js.upper c
  /\ ((Js.code c =? 95)%N = false -> (Js.code (Js.upper c) =? 95)%N = false).
Proof.
  destruct c as [[] [] [] [] [] [] [] []]; vm_compute;
    repeat split; intros; congruence.
Qed.

Lemma underscores_to_spaces_clean (s : string) :
  occurs 95 (Js.underscores_to_spaces s) = false.
Proof.
  induction s as [| c r IH]; [reflexivity |].
  unfold Js.underscores_to_spaces in *. cbn [Js.map_chars occurs].
  rewrite IH, orb_false_r.
  destruct (Js.code c =? 95)%N eqn:E; [reflexivity | exact E].
Qed.

Lemma underscores_to_spaces_fixed (s : string) :
  occurs 95 s = false -> Js.underscores_to_spaces s = s.
Proof.
  induction s as [| c r IH]; [reflexivity |].
  cbn [occurs]. intros H. apply orb_false_elim in H as [Hc Hr].
  unfold Js.underscores_to_spaces in *. cbn [Js.map_chars].
  rewrite Hc, (IH Hr). reflexivity.
Qed.

Lemma upper_at_boundaries_clean (s : string) (prev : bool) :
  occurs 95 s = false -> occurs 95 (Js.upper_at_boundaries prev s) = false.
Proof.
  revert prev. induction s as [| c r IH]; intros prev; [reflexivity |].
  cbn [occurs Js.upper_at_boundaries]. intros H.
  apply orb_false_elim in H as [Hc Hr]. rewrite (IH _ Hr), orb_false_r.
  destruct (Js.is_word c && negb prev); [| exact Hc].
  apply upper_facts. exact Hc.
Qed.

Lemma upper_at_boundaries_twice (s : string) (prev : bool) :
  Js.upper_at_boundaries prev (Js.upper_at_boundaries prev s)
  = Js.upper_at_boundaries prev s.
Proof.
  revert prev. induction s as [| c r IH]; intros prev; [reflexivity |].
  cbn [Js.upper_at_boundaries].
  destruct (upper_facts c) as (Hw & Hu & _).
  destruct (Js.is_word c && negb prev) eqn:E.
  - rewrite Hw, E, Hu, IH. reflexivity.
  - rewrite E, IH. reflexivity.
Qed.

Lemma replacements_keep_length (f : ascii -> ascii) (s : string) (prev : bool) :
  String.length (Js.upper_at_boundaries prev (Js.map_chars f s))
  = String.length s.
Proof.
  revert prev. induction s as [| c r IH]; intros prev; [reflexivity |].
  cbn [Js.map_chars Js.upper_at_boundaries String.length].
  rewrite IH. reflexivity.
Qed.

Lemma title_case_length (id : string) :
  String.length (Badge.title_case id) = String.length id.
Proof. apply replacements_keep_length. Qed.

(** X3: the fallback label of [prettyBadge] has as many characters as the
    identifier and no underscore, and it is a fixed point of the
    transform: title-casing a label again changes nothing. *)
Theorem title_case_shape (id : string) :
  String.length (Badge.title_case id) = String.length id
  /\ occurs 95 (Badge.title_case id) = false
  /\ Badge.title_case (Badge.title_case id) = Badge.title_case id.
Proof.
  split; [apply title_case_length |].
  assert (Hclean : occurs 95 (Badge.title_case id) = false).
  { unfold Badge.title_case.
    apply upper_at_boundaries_clean, underscores_to_spaces_clean. }
  split; [exact Hclean |].
  unfold Badge.title_case at 1.
  rewrite (underscores_to_spaces_fixed _ Hclean).
  unfold Badge.title_case. apply upper_at_boundaries_twice.
Qed.

(** X4: [prettyBadge] always returns something to show: never
    [undefined], and the empty text only for the empty identifier. *)
Theorem prettyBadge_defined (id : string) :
  Badge.prettyBadge id <> Badge.Undefined
  /\ (Badge.prettyBadge id = Badge.Str EmptyString <-> id = EmptyString).
Proof.
  unfold Badge.prettyBadge, Badge.get.
  destruct (Badge.BADGE_LABELS !! id) as [label |] eqn:Hid.
  - pose proof (labels_nonempty id label Hid) as Hne.
    cbn [Badge.truthy]. rewrite Hne. split; [discriminate |].
    split.
    + intros [= ->]. discriminate Hne.
    + intros ->. vm_compute in Hid. discriminate Hid.
  - destruct (bool_decide (id ∈ Badge.Object_prototype)) eqn:Hp;
      cbn [Badge.truthy].
    + split; [discriminate |]. split; [discriminate |].
      intros ->. vm_compute in Hp. discriminate Hp.
    + split; [discriminate |]. split.
      * intros [= H]. pose proof (title_case_length id) as Hl.
        rewrite H in Hl. destruct id; [reflexivity | discriminate Hl].
      * intros ->. reflexivity.
Qed.

End Texts.

(** ** Rendering state and leaderboard *)

Section Rendering.
Import Net Game.

Lemma render_state_lists (pg : page) (o : object) (w : world) :
  has_daily_list pg = true -> has_weekly_list pg = true ->
  daily_list (view (render_state pg o w))
    = map task_to_row
        (filter (fun t => category t = "daily") (default [] (tasks o)))
  /\ weekly_list (view (render_state pg o w))
     = map task_to_row
         (filter (fun t => category t = "weekly") (default [] (tasks o))).
Proof.
  intros Hd Hw. unfold render_state, renderTasks, render_badges, setWidth,
    setText, byId. rewrite Hd, Hw.
  destruct (has_points pg), (has_streak pg), (has_level_name pg),
    (has_xp_bar pg), (has_badges pg); split; reflexivity.
Qed.

Lemma hud_ext (h h' : hud) :
  points_text h = points_text h' /\ streak_text h = streak_text h'
  /\ level_name h = level_name h' /\ xp_bar_width h = xp_bar_width h'
  /\ badge_chips h = badge_chips h' /\ daily_list h = daily_list h'
  /\ weekly_list h = weekly_list h' ->
  h = h'.
Proof.
  destruct h, h'. cbn. intros (-> & -> & -> & -> & -> & -> & ->). reflexivity.
Qed.

(** Each element of the progress part is written from the state when it is
    on the page, and left alone when it is not. *)
Lemma render_state_fields (pg : page) (o : object) (w : world) :
  points_text (view (render_state pg o w))
    = (if has_points pg then Js.of_Z (number_or_zero (points o))
       else points_text (view w))
  /\ streak_text (view (render_state pg o w))
     = (if has_streak pg then Js.of_Z (number_or_zero (streak o))
        else streak_text (view w))
  /\ level_name (view (render_state pg o w))
     = (if has_level_name pg then default "Rookie Connector" (level o)
        else level_name (view w))
  /\ xp_bar_width (view (render_state pg o w))
     = (if has_xp_bar pg then xp_width (number_or_zero (points o))
        else xp_bar_width (view w))
  /\ badge_chips (view (render_state pg o w))
     = (if has_badges pg
        then map Badge.prettyBadge (default [] (badges o))
        else badge_chips (view w))
  /\ daily_list (view (render_state pg o w))
     = (if has_daily_list pg
        then map task_to_row
               (filter (fun t => category t = "daily") (default [] (tasks o)))
        else daily_list (view w))
  /\ weekly_list (view (render_state pg o w))
     = (if has_weekly_list pg
        then map task_to_row
               (filter (fun t => category t = "weekly") (default [] (tasks o)))
        else weekly_list (view w)).
Proof.
  assert (Hset : forall b id f v,
             view (setText b id f v) = if b then f (view v) else view v).
  { intros b id f v. unfold setText, byId. destruct b; reflexivity. }
  assert (Htasks : forall b id f ts v,
             view (renderTasks b id f ts v)
             = if b then f (map task_to_row ts) (view v) else view v).
  { intros b id f ts v. unfold renderTasks. destruct b; reflexivity. }
  assert (Hbadges : forall v,
             view (render_badges pg o v)
             = if has_badges pg
               then set_badge_chips
                      (map Badge.prettyBadge (default [] (badges o))) (view v)
               else view v).
  { intros v. unfold render_badges. destruct (has_badges pg); reflexivity. }
  unfold render_state, setWidth. rewrite !Htasks, Hbadges, !Hset.
  destruct (has_points pg), (has_streak pg), (has_level_name pg),
    (has_xp_bar pg), (has_badges pg), (has_daily_list pg),
    (has_weekly_list pg); repeat split.
Qed.

(** X5: handling the same state response twice shows what handling it
    once shows, on every page, whichever elements are missing: rendering
    replaces, it never accumulates. *)
Theorem after_state_idempotent (pg : page) (r : response) (w : world) :
  view (after_state pg r (after_state pg r w)) = view (after_state pg r w).
Proof.
  assert (H : forall o v,
             view (render_state pg o (render_state pg o v))
             = view (render_state pg o v)).
  { intros o v. apply hud_ext.
    destruct (render_state_fields pg o (render_state pg o v))
      as (-> & -> & -> & -> & -> & -> & ->).
    destruct (render_state_fields pg o v)
      as (-> & -> & -> & -> & -> & -> & ->).
    destruct (has_points pg), (has_streak pg), (has_level_name pg),
      (has_xp_bar pg), (has_badges pg), (has_daily_list pg),
      (has_weekly_list pg); repeat split. }
  destruct r as [| ok [| | rows | o]]; cbn [after_state];
    first [reflexivity | apply H].
Qed.

Lemma row_action_complete (t : task) (id : string) :
  row_action (task_to_row t) = Complete id
  <-> task_id t = id /\ completed t = false.
Proof.
  unfold task_to_row. cbn [row_action]. destruct (completed t).
  - split; [discriminate | intros [_ H]; discriminate H].
  - split; [intros [= H]; auto | intros [-> _]; reflexivity].
Qed.

(** X6: a state whose tasks have plain texts (no [<] in a description, no
    double quote in an identifier) is rendered.  Then the page offers a
    Complete button for an identifier exactly when the state has a task
    with that identifier that is not completed and whose category is daily
    or weekly: a completed task, and a task of any other category, cannot
    be completed from the page.  (Without the condition on the texts the
    markup of a description can swallow the button of its row.) *)
Theorem complete_buttons (pg : page) (ok : bool) (o : object) (w : world)
    (id : string) :
  has_daily_list pg = true -> has_weekly_list pg = true ->
  Forall plain_task (default [] (tasks o)) ->
  has_button id (after_state pg (Replied ok (Object o)) w) = true
  <-> exists t, t ∈ default [] (tasks o) /\ task_id t = id
                /\ completed t = false
                /\ (category t = "daily" \/ category t = "weekly").
Proof.
  intros Hd Hw _. cbn [after_state]. unfold has_button.
  destruct (render_state_lists pg o w Hd Hw) as [-> ->].
  rewrite bool_decide_eq_true, list_elem_of_In, map_app, in_app_iff, !map_map,
    !in_map_iff.
  split.
  - intros [(t & Ht & Hin) | (t & Ht & Hin)];
      apply list_elem_of_In, list_elem_of_filter in Hin as [Hc Hin];
      apply row_action_complete in Ht as [Hid Hopen];
      exists t; tauto.
  - intros (t & Hin & Hid & Hopen & [Hc | Hc]); [left | right];
      (exists t; split;
       [ apply row_action_complete; tauto
       | apply list_elem_of_In, list_elem_of_filter; tauto ]).
Qed.

Lemma complete_buttons_t1 :
  has_button "t1"
    (after_state full_page (Replied true (Object state_145)) (boot [])) = true
  /\ has_button "t1"
       (after_state full_page (Replied true (Object state_155)) (boot []))
     = false.
Proof.
  split.
  - apply (complete_buttons full_page true state_145 (boot []) "t1");
      [reflexivity | reflexivity | |].
    { repeat constructor. }
    eexists. split; [apply list_elem_of_here |].
    repeat split. left. reflexivity.
  - reflexivity.
Defined.

(** X7: a state or leaderboard request that never completes, or whose
    body cannot be read, changes nothing on the page, shows no alert and
    sends nothing again; it leaves one message on the console. *)
Theorem load_failure_leaves_page (pg : page) (w : world) (i : nat)
    (r : response) :
  r = Rejected \/ (exists ok, r = Replied ok NotJson) ->
  sent w !! i = Some GetState \/ sent w !! i = Some GetLeaderboard ->
  i ∈ pending w ->
  let w' := step pg (Response i r) w in
  view w' = view w /\ board w' = board w /\ quest_view w' = quest_view w
  /\ coach w' = coach w /\ alerts w' = alerts w /\ sent w' = sent w
  /\ length (console w') = S (length (console w))
  /\ i ∉ pending w'.
Proof.
  intros Hr Hi Hin w'. subst w'. cbn [step]. unfold receive.
  rewrite bool_decide_eq_true_2 by exact Hin.
  assert (Hgone : i ∉ filter (fun j => j ≠ i) (pending w)).
  { intros H. apply list_elem_of_filter in H as [H _]. congruence. }
  destruct Hi as [-> | ->], Hr as [-> | [ok ->]];
    cbn [after_state after_leaderboard];
    repeat split; try reflexivity; try exact Hgone;
    unfold log, settle, with_pending; cbn [console];
    rewrite length_app; cbn [length]; lia.
Qed.

Lemma load_failure_leaves_page_boot :
  view (step full_page (Response 0 Rejected) (loadState (boot [])))
  = view (boot []).
Proof.
  destruct (load_failure_leaves_page full_page (loadState (boot [])) 0 Rejected)
    as (H & _); [left; reflexivity | left; reflexivity | |].
  - apply list_elem_of_here.
  - exact H.
Defined.



(** X9: the clamp of the bar at 100 never applies.  For every integer
    number of points the width is the remainder of the division by 100,
    which has the sign of the points: above 99 it wraps around, and a
    negative number of points gives a negative width. *)
Theorem xp_width_any (p : Z) :
  xp_width p = Js.of_Z (Z.rem p 100) +:+ "%"
  /\ -99 <= Z.rem p 100 <= 99
  /\ (0 <= p -> 0 <= Z.rem p 100)
  /\ (p <= 0 -> Z.rem p 100 <= 0).
Proof.
  pose proof (Z.rem_bound_pos_pos p 100) as Hpos.
  pose proof (Z.rem_bound_pos_neg p 100) as Hneg.
  unfold xp_width, Js.rem.
  assert (H : -99 <= Z.rem p 100 <= 99) by lia.
  rewrite Z.min_r by lia. repeat split; lia.
Qed.

End Rendering.

(** ** Requests and responses *)

Section Requests.
Import Net Game.

(** [render_state] writes on the progress part and on the console only. *)
Lemma render_state_frame (pg : page) (o : object) (w : world) :
  board (render_state pg o w) = board w
  /\ quest_view (render_state pg o w) = quest_view w
  /\ coach (render_state pg o w) = coach w
  /\ currentQuest (render_state pg o w) = currentQuest w
  /\ alerts (render_state pg o w) = alerts w
  /\ sent (render_state pg o w) = sent w
  /\ pending (render_state pg o w) = pending w.
Proof.
  assert (Hset : forall b id f v u,
             off_view u v -> off_view u (setText b id f v)).
  { intros b id f v u H. unfold setText, byId. destruct b; exact H. }
  assert (Htasks : forall b id f ts v u,
             off_view u v -> off_view u (renderTasks b id f ts v)).
  { intros b id f ts v u H. unfold renderTasks. destruct b; exact H. }
  assert (Hbadges : forall v u,
             off_view u v -> off_view u (render_badges pg o v)).
  { intros v u H. unfold render_badges. destruct (has_badges pg); exact H. }
  unfold render_state, setWidth.
  apply (Htasks _ _ _ _ _ w), Htasks, Hbadges, Hset, Hset, Hset, Hset.
  repeat split.
Qed.

Lemma after_state_frame (pg : page) (r : response) (w : world) :
  board (after_state pg r w) = board w
  /\ quest_view (after_state pg r w) = quest_view w
  /\ coach (after_state pg r w) = coach w
  /\ currentQuest (after_state pg r w) = currentQuest w
  /\ alerts (after_state pg r w) = alerts w
  /\ sent (after_state pg r w) = sent w
  /\ pending (after_state pg r w) = pending w.
Proof.
  destruct r as [| ok [| | rows | o]]; cbn [after_state];
    try (repeat split; fail); apply render_state_frame.
Qed.

Lemma after_leaderboard_frame (pg : page) (r : response) (w : world) :
  view (after_leaderboard pg r w) = view w
  /\ quest_view (after_leaderboard pg r w) = quest_view w
  /\ coach (after_leaderboard pg r w) = coach w
  /\ currentQuest (after_leaderboard pg r w) = currentQuest w
  /\ alerts (after_leaderboard pg r w) = alerts w
  /\ sent (after_leaderboard pg r w) = sent w
  /\ pending (after_leaderboard pg r w) = pending w.
Proof.
  unfold after_leaderboard.
  destruct r as [| ok [| | [| r1 rs] | o]], (has_leaderboard_body pg);
    repeat split.
Qed.

(** What a response does to the requests: the request answered is no more
    in flight, and either nothing is sent, or state and leaderboard are
    asked for. *)
Lemma receive_requests (pg : page) (i : nat) (r : response) (w : world)
    (req : request) :
  i ∈ pending w -> sent w !! i = Some req ->
  (sent (receive pg i r w) = sent w
   /\ pending (receive pg i r w) = filter (fun j => j ≠ i) (pending w))
  \/ (sent (receive pg i r w) = sent w ++ [GetState; GetLeaderboard]
      /\ pending (receive pg i r w)
         = filter (fun j => j ≠ i) (pending w)
             ++ [length (sent w); S (length (sent w))]
      /\ ~ unreadable r).
Proof.
  intros Hin Hreq. unfold receive.
  rewrite bool_decide_eq_true_2 by exact Hin. rewrite Hreq.
  assert (Hrefresh : forall v,
             sent (refresh v) = sent v ++ [GetState; GetLeaderboard]
             /\ pending (refresh v)
                = pending v ++ [length (sent v); S (length (sent v))]).
  { intros v. unfold refresh, loadLeaderboard, loadState.
    cbn [fetch sent pending]. rewrite <- !app_assoc, length_app.
    cbn [length app]. rewrite Nat.add_1_r. split; reflexivity. }
  assert (Hnot : forall ok b, b ≠ NotJson -> ~ unreadable (Replied ok b)).
  { intros ok b Hb [H | [ok' H]]; [discriminate H |].
    injection H as _ H. contradiction. }
  destruct req as [| | taskId | t | t txt c | txt].
  - left. destruct (after_leaderboard_frame pg r (settle i w))
      as (_ & _ & _ & _ & _ & -> & ->). split; reflexivity.
  - left. destruct (after_state_frame pg r (settle i w))
      as (_ & _ & _ & _ & _ & -> & ->). split; reflexivity.
  - destruct r as [| [|] [| | rows | o]]; cbn [after_completeTask];
      try (left; split; reflexivity);
      right; destruct (Hrefresh (settle i w)) as [-> ->];
      (split; [reflexivity | split; [reflexivity | apply Hnot; discriminate]]).
  - left. destruct r as [| ok [| | rows | o]]; split; reflexivity.
  - destruct r as [| ok [| | rows | o]]; cbn [after_questScore];
      try (left; split; reflexivity);
      right;
      match goal with
      | |- context [refresh ?v] => destruct (Hrefresh v) as [-> ->]
      end;
      (split; [reflexivity | split; [reflexivity | apply Hnot; discriminate]]).
  - left. destruct r as [| ok [| | rows | o]]; split; reflexivity.
Qed.

(** X10: nothing is retried and nothing else is fetched behind the back
    of the user.  The arrival of a response sends either nothing or the two
    refresh requests, state then leaderboard; a response that never
    completed, or whose body cannot be read, sends nothing, whatever
    request it answers. *)
Theorem response_sends_refresh_only (pg : page) (i : nat) (r : response)
    (w : world) :
  (sent (step pg (Response i r) w) = sent w
   \/ sent (step pg (Response i r) w) = sent w ++ [GetState; GetLeaderboard])
  /\ (unreadable r -> sent (step pg (Response i r) w) = sent w).
Proof.
  cbn [step].
  destruct (decide (i ∈ pending w)) as [Hin | Hout].
  - destruct (sent w !! i) as [req |] eqn:Hreq.
    + destruct (receive_requests pg i r w req Hin Hreq)
        as [[Hs _] | (Hs & _ & Hr)].
      * split; [left; exact Hs | intros _; exact Hs].
      * split; [right; exact Hs | intros H; contradiction].
    + unfold receive. rewrite bool_decide_eq_true_2 by exact Hin.
      rewrite Hreq. split; [left; reflexivity | reflexivity].
  - unfold receive. rewrite bool_decide_eq_false_2 by exact Hout.
    split; [left; reflexivity | reflexivity].
Qed.

Lemma response_sends_refresh_only_rejected :
  sent (step full_page (Response 1 Rejected) score_asked) = sent score_asked.
Proof.
  apply (response_sends_refresh_only full_page 1 Rejected score_asked).
  left. reflexivity.
Defined.

(** X13: on a page with the quest modal, the only event that shows an
    alert is the arrival of a response without success status that answers
    a request to complete a task, and it shows exactly one. *)
Theorem alert_means_refused_completion (pg : page) (e : event) (w : world) :
  ensureModal_ok pg = true ->
  alerts (step pg e w) <> alerts w ->
  exists i b taskId m,
    e = Response i (Replied false b)
    /\ sent w !! i = Some (PostCompleteTask taskId)
    /\ i ∈ pending w
    /\ alerts (step pg e w) = alerts w ++ [m].
Proof.
  intros Hok Halert.
  destruct e as [taskId | t | | i | | s | | | | s | i r]; cbn [step] in *.
  - exfalso. apply Halert. destruct (has_button taskId w); reflexivity.
  - exfalso. apply Halert. unfold openQuest.
    rewrite (ensureModal_present pg w Hok). reflexivity.
  - exfalso. apply Halert. unfold closeQuest.
    destruct (has_quest_modal pg); reflexivity.
  - exfalso. apply Halert. unfold choosePill.
    destruct (pills (quest_view w) !! i); reflexivity.
  - exfalso. apply Halert. unfold scoreQuest.
    rewrite (ensureModal_present pg w Hok). reflexivity.
  - exfalso. apply Halert. destruct (has_quest_text pg); reflexivity.
  - exfalso. apply Halert. unfold openCoach.
    destruct (has_coach_modal pg && coach_ok pg); reflexivity.
  - exfalso. apply Halert. unfold closeCoach.
    destruct (has_coach_modal pg); reflexivity.
  - exfalso. apply Halert. unfold coachSend, coachSend_effects.
    destruct (coach_ok pg); [| reflexivity].
    destruct (Js.nonempty _); reflexivity.
  - exfalso. apply Halert. destruct (has_coach_input pg); reflexivity.
  - unfold receive in *.
    destruct (decide (i ∈ pending w)) as [Hin | Hout].
    2: { rewrite bool_decide_eq_false_2 in Halert by exact Hout.
         congruence. }
    rewrite bool_decide_eq_true_2 in * by exact Hin.
    destruct (sent w !! i) as [[| | taskId | t | t txt c | txt] |] eqn:Hreq;
      [| | | | | | congruence].
    + exfalso. apply Halert.
      apply (after_leaderboard_frame pg r (settle i w)).
    + exfalso. apply Halert. apply (after_state_frame pg r (settle i w)).
    + destruct r as [| [|] [| | rows | o]];
        try (exfalso; apply Halert; reflexivity);
        (eexists i, _, taskId, _;
         split; [reflexivity |]; split; [exact Hreq |];
         split; [exact Hin | reflexivity]).
    + exfalso. apply Halert. destruct r as [| ok [| | rows | o]]; reflexivity.
    + exfalso. apply Halert. destruct r as [| ok [| | rows | o]]; reflexivity.
    + exfalso. apply Halert. destruct r as [| ok [| | rows | o]]; reflexivity.
Qed.

Lemma alert_means_refused_completion_t1 :
  exists i b taskId m,
    Response 0 (Replied false (Object error_reply))
    = Response i (Replied false b)
    /\ sent (completeTask "t1" loaded_145) !! i = Some (PostCompleteTask taskId)
    /\ i ∈ pending (completeTask "t1" loaded_145)
    /\ alerts (step full_page (Response 0 (Replied false (Object error_reply)))
                 (completeTask "t1" loaded_145))
       = alerts (completeTask "t1" loaded_145) ++ [m].
Proof.
  apply (alert_means_refused_completion full_page
           (Response 0 (Replied false (Object error_reply)))
           (completeTask "t1" loaded_145)); [reflexivity | discriminate].
Defined.

Lemma after_state_view_ext (pg : page) (r : response) (w v : world) :
  view w = view v -> view (after_state pg r w) = view (after_state pg r v).
Proof.
  intros H.
  destruct r as [| ok [| | rows | o]]; cbn [after_state]; try exact H;
    apply hud_ext;
    match goal with
    | |- context [render_state pg ?x w] =>
        destruct (render_state_fields pg x w)
          as (-> & -> & -> & -> & -> & -> & ->);
        destruct (render_state_fields pg x v)
          as (-> & -> & -> & -> & -> & -> & ->)
    end;
    rewrite H; repeat split.
Qed.

Lemma after_leaderboard_board_ext (pg : page) (r : response) (w v : world) :
  board w = board v ->
  board (after_leaderboard pg r w) = board (after_leaderboard pg r v).
Proof.
  intros H. unfold after_leaderboard.
  destruct r as [| ok [| | [| r1 rs] | o]], (has_leaderboard_body pg);
    first [exact H | reflexivity].
Qed.

(** X14: the two responses of a refresh may arrive in either order: but
    for the order of the messages on the console, the page, the alerts and
    the requests end up the same. *)
Theorem refresh_order_irrelevant (pg : page) (i j : nat) (r1 r2 : response)
    (w : world) :
  i ≠ j ->
  sent w !! i = Some GetState -> sent w !! j = Some GetLeaderboard ->
  i ∈ pending w -> j ∈ pending w ->
  let a := run pg [Response i r1; Response j r2] w in
  let b := run pg [Response j r2; Response i r1] w in
  view a = view b /\ board a = board b /\ quest_view a = quest_view b
  /\ coach a = coach b /\ currentQuest a = currentQuest b
  /\ alerts a = alerts b /\ sent a = sent b /\ pending a = pending b.
Proof.
  intros Hij Hi Hj Hini Hinj a b.
  set (w1 := after_state pg r1 (settle i w)).
  set (w2 := after_leaderboard pg r2 (settle j w)).
  destruct (after_state_frame pg r1 (settle i w))
    as (Hb1 & Hq1 & Hc1 & Hcq1 & Ha1 & Hs1 & Hp1).
  destruct (after_leaderboard_frame pg r2 (settle j w))
    as (Hv2 & Hq2 & Hc2 & Hcq2 & Ha2 & Hs2 & Hp2).
  fold w1 in Hb1, Hq1, Hc1, Hcq1, Ha1, Hs1, Hp1.
  fold w2 in Hv2, Hq2, Hc2, Hcq2, Ha2, Hs2, Hp2.
  assert (Ea : a = after_leaderboard pg r2 (settle j w1)).
  { subst a. cbn [run fold_left step]. unfold receive at 2.
    rewrite bool_decide_eq_true_2 by exact Hini. rewrite Hi. fold w1.
    unfold receive. rewrite Hs1, Hp1.
    rewrite bool_decide_eq_true_2
      by (apply list_elem_of_filter; split; [congruence | exact Hinj]).
    cbn [settle with_pending sent]. rewrite Hj. reflexivity. }
  assert (Eb : b = after_state pg r1 (settle i w2)).
  { subst b. cbn [run fold_left step]. unfold receive at 2.
    rewrite bool_decide_eq_true_2 by exact Hinj. rewrite Hj. fold w2.
    unfold receive. rewrite Hs2, Hp2.
    rewrite bool_decide_eq_true_2
      by (apply list_elem_of_filter; split; [congruence | exact Hini]).
    cbn [settle with_pending sent]. rewrite Hi. reflexivity. }
  destruct (after_leaderboard_frame pg r2 (settle j w1))
    as (Hva & Hqa & Hca & Hcqa & Haa & Hsa & Hpa).
  destruct (after_state_frame pg r1 (settle i w2))
    as (Hbb & Hqb & Hcb & Hcqb & Hab & Hsb & Hpb).
  rewrite Ea, Eb.
  rewrite Hva, Hqa, Hca, Hcqa, Haa, Hsa, Hpa.
  rewrite Hbb, Hqb, Hcb, Hcqb, Hab, Hsb, Hpb.
  cbn [settle with_pending view board quest_view coach currentQuest alerts
         sent pending].
  rewrite Hq1, Hc1, Hcq1, Ha1, Hs1, Hp1, Hq2, Hc2, Hcq2, Ha2, Hs2, Hp2.
  cbn [settle with_pending view board quest_view coach currentQuest alerts
         sent pending].
  repeat split.
  - apply after_state_view_ext. exact (eq_sym Hv2).
  - apply after_leaderboard_board_ext. exact Hb1.
  - rewrite !list_filter_filter. apply list_filter_iff. intros x. tauto.
Qed.

Lemma refresh_order_irrelevant_boot :
  view (run full_page
          [ Response 0 (Replied true (Object state_155));
            Response 1 (Replied true (Array [])) ]
          (refresh (boot [])))
  = view (run full_page
            [ Response 1 (Replied true (Array []));
              Response 0 (Replied true (Object state_155)) ]
            (refresh (boot []))).
Proof.
  destruct (refresh_order_irrelevant full_page 0 1
              (Replied true (Object state_155)) (Replied true (Array []))
              (refresh (boot [])))
    as (H & _);
    [ discriminate | reflexivity | reflexivity | apply list_elem_of_here
    | apply list_elem_of_further, list_elem_of_here | exact H ].
Defined.

End Requests.

(** ** Quests: opening, the guard, late scenarios *)

Section QuestFlow.
Import Net Game.

Lemma release_by_choice (l l' : list pill) :
  map data_choice l = map data_choice l' -> map release l = map release l'.
Proof.
  revert l'. induction l as [| p l IH]; intros [| p' l'] H;
    try discriminate H; [reflexivity |].
  cbn [map] in *. injection H as Hp Hl.
  unfold release at 1 3. rewrite Hp, (IH l' Hl). reflexivity.
Qed.

(** X15: opening a quest discards the session before it.  What the modal
    shows and [currentQuest] after [openQuest] depend on the quest type and
    on the choices the chips carry only, not on the draft, the score
    result, the selected chip or the quest that was open before; no chip
    is left selected. *)
Theorem openQuest_discards_session (pg : page) (t : quest_type)
    (w v : world) :
  ensureModal_ok pg = true ->
  map data_choice (pills (quest_view w)) = map data_choice (pills (quest_view v)) ->
  quest_view (openQuest pg t w) = quest_view (openQuest pg t v)
  /\ currentQuest (openQuest pg t w) = {| type := t; choice := EmptyString |}
  /\ text (quest_view (openQuest pg t w)) = EmptyString
  /\ score_result (quest_view (openQuest pg t w)) = EmptyString
  /\ Forall (fun p => active p = false /\ aria_pressed p = false)
       (pills (quest_view (openQuest pg t w)))
  /\ map data_choice (pills (quest_view (openQuest pg t w)))
     = map data_choice (pills (quest_view w)).
Proof.
  intros Hok Hchips. unfold openQuest.
  rewrite !(ensureModal_present pg _ Hok).
  cbn [fetch with_quest_view with_currentQuest quest_view currentQuest
         set_pills set_follow_display set_score_result set_text set_prompt
         set_title set_modal_display pills text score_result modal_display
         title prompt follow_display].
  rewrite (release_by_choice _ _ Hchips).
  repeat split.
  - apply Forall_forall. intros p Hp. apply list_elem_of_In, in_map_iff in Hp.
    destruct Hp as (q & <- & _). split; reflexivity.
  - rewrite map_map, Hchips. reflexivity.
Qed.

Lemma openQuest_discards_session_after_choice :
  quest_view (openQuest full_page coffee (step full_page (ClickPill 1) two_chips))
  = quest_view (openQuest full_page coffee two_chips).
Proof.
  apply (openQuest_discards_session full_page coffee
           (step full_page (ClickPill 1) two_chips) two_chips);
    reflexivity.
Defined.

(** X16: when one of the six elements of the quest modal is missing,
    opening a quest and asking for a score do nothing but tell: one alert
    and one console message, no request, and the page and [currentQuest]
    as before. *)
Theorem missing_modal_blocks_quests (pg : page) (e : event) (w : world) :
  ensureModal_ok pg = false ->
  (exists t, e = ClickStart t) \/ e = ClickScoreQuest ->
  let w' := step pg e w in
  sent w' = sent w /\ pending w' = pending w
  /\ quest_view w' = quest_view w /\ currentQuest w' = currentQuest w
  /\ view w' = view w /\ coach w' = coach w
  /\ alerts w'
     = alerts w
         ++ ["Quest UI is missing in HTML. Add the Quest Modal block with required IDs."]
  /\ console w' = console w ++ ["[game] quest modal pieces missing"].
Proof.
  intros Hok [[t ->] | ->] w'; subst w'; cbn [step];
    unfold openQuest, scoreQuest; rewrite (ensureModal_missing pg w Hok);
    repeat split.
Qed.

(** A page without the element of the score result. *)
Lemma missing_modal_blocks_quests_no_result :
  sent (step
          {| has_leaderboard_body := true; has_points := true;
             has_streak := true; has_level_name := true; has_xp_bar := true;
             has_badges := true; has_daily_list := true;
             has_weekly_list := true; has_quest_modal := true;
             has_quest_title := true; has_quest_prompt := true;
             has_quest_text := true; has_score_result := false;
             has_followup_choices := true; has_coach_modal := true;
             has_coach_feed := true; has_coach_input := true;
             has_coach_status := true |}
          ClickScoreQuest (boot []))
  = [].
Proof.
  refine (proj1 (missing_modal_blocks_quests _ ClickScoreQuest (boot []) _ _));
    [reflexivity | right; reflexivity].
Defined.

(** X17: a scenario that arrives late is shown under the wrong quest.
    When a second quest is opened before the scenario of the first has
    arrived, the scenario of the first request, once it arrives after that
    of the second, is the prompt shown, under the title and with the type
    of the second quest: no response is ever discarded as out of date. *)
Theorem late_scenario_overwrites (pg : page) (t1 t2 : quest_type)
    (w : world) (r2 : response) (ok : bool) (o1 : object) (p : string) :
  ensureModal_ok pg = true ->
  scenario_prompt o1 = Some p -> Js.nonempty p = true ->
  let n := length (sent w) in
  let final :=
    run pg [ ClickStart t1; ClickStart t2; Response (S n) r2;
             Response n (Replied ok (Object o1)) ] w in
  prompt (quest_view final) = p
  /\ title (quest_view final) = quest_title t2
  /\ type (currentQuest final) = t2
  /\ sent final = sent w ++ [PostQuestStart t1; PostQuestStart t2].
Proof.
  intros Hok Hp Hne n final. subst final. cbn [run fold_left step].
  set (w1 := openQuest pg t1 w).
  destruct (openQuest_requests pg t1 w Hok) as (Hs1 & Hp1 & _ & _).
  fold w1 in Hs1, Hp1.
  set (w2 := openQuest pg t2 w1).
  destruct (openQuest_requests pg t2 w1 Hok) as (Hs2 & Hp2 & _ & _).
  fold w2 in Hs2, Hp2.
  assert (Hlen : length (sent w1) = S n).
  { rewrite Hs1, length_app. cbn [length]. subst n. lia. }
  rewrite Hlen in Hp2.
  assert (Hl1 : sent w2 !! n = Some (PostQuestStart t1)).
  { rewrite Hs2, Hs1, <- app_assoc. apply list_lookup_middle. reflexivity. }
  assert (Hl2 : sent w2 !! S n = Some (PostQuestStart t2)).
  { rewrite Hs2. apply list_lookup_middle. exact (eq_sym Hlen). }
  assert (Hin2 : S n ∈ pending w2).
  { rewrite Hp2. apply elem_of_app. right. constructor. }
  assert (Hin1 : n ∈ pending w2).
  { rewrite Hp2, Hp1. apply elem_of_app. left. apply elem_of_app. right.
    constructor. }
  set (w3 := receive pg (S n) r2 w2).
  assert (E3 : w3 = after_questStart r2 (settle (S n) w2)).
  { subst w3. unfold receive. rewrite bool_decide_eq_true_2 by exact Hin2.
    rewrite Hl2. reflexivity. }
  assert (F3 : sent w3 = sent w2
               /\ pending w3 = filter (fun j => j ≠ S n) (pending w2)
               /\ title (quest_view w3) = title (quest_view w2)
               /\ currentQuest w3 = currentQuest w2).
  { rewrite E3. destruct r2 as [| ok2 [| | rows | o2]]; repeat split. }
  destruct F3 as (Hs3 & Hp3 & Ht3 & Hc3).
  assert (E4 : receive pg n (Replied ok (Object o1)) w3
               = after_questStart (Replied ok (Object o1)) (settle n w3)).
  { unfold receive. rewrite Hp3, Hs3.
    rewrite bool_decide_eq_true_2
      by (apply list_elem_of_filter; split; [lia | exact Hin1]).
    rewrite Hl1. reflexivity. }
  rewrite E4. cbn [after_questStart]. rewrite Hp.
  unfold Js.or_else. rewrite Hne.
  cbn [with_quest_view quest_view set_prompt prompt title currentQuest sent
         settle with_pending].
  rewrite Ht3, Hc3, Hs3, Hs2, Hs1, <- app_assoc.
  subst w2. unfold openQuest. rewrite (ensureModal_present pg w1 Hok).
  repeat split.
Qed.

Lemma late_scenario_overwrites_coffee :
  prompt
    (quest_view
       (run full_page
          [ ClickStart outreach; ClickStart coffee; Response 1 Rejected;
            Response 0 (Replied true (Object scenario_reply)) ]
          (boot [])))
  = "Introduce yourself to a recruiter."
  /\ title
       (quest_view
          (run full_page
             [ ClickStart outreach; ClickStart coffee; Response 1 Rejected;
               Response 0 (Replied true (Object scenario_reply)) ]
             (boot [])))
     = "Coffee-Chat Prep".
Proof.
  destruct (late_scenario_overwrites full_page outreach coffee (boot [])
              Rejected true scenario_reply
              "Introduce yourself to a recruiter.")
    as (H1 & H2 & _); [reflexivity | reflexivity | reflexivity |].
  split; [exact H1 | exact H2].
Defined.

End QuestFlow.

(** ** The selected choice, the transcript, repeated clicks *)

Section Interaction.
Import Net Game.

Lemma imap_data_choice (l : list pill) (f : nat -> pill -> pill) :
  (forall j p, data_choice (f j p) = data_choice p) ->
  map data_choice (imap f l) = map data_choice l.
Proof.
  revert f. induction l as [| p l IH]; intros f Hf; [reflexivity |].
  cbn [imap map]. rewrite Hf, IH; [reflexivity |].
  intros j q. apply Hf.
Qed.

(** The arrival of a response changes neither the chips, nor
    [currentQuest], nor the coach input. *)
Lemma receive_session (pg : page) (i : nat) (r : response) (w : world) :
  pills (quest_view (receive pg i r w)) = pills (quest_view w)
  /\ currentQuest (receive pg i r w) = currentQuest w
  /\ text (quest_view (receive pg i r w)) = text (quest_view w).
Proof.
  unfold receive. destruct (bool_decide (i ∈ pending w)); [| repeat split].
  destruct (sent w !! i) as [[| | taskId | t | t txt c | txt] |];
    [| | | | | | repeat split].
  - destruct (after_leaderboard_frame pg r (settle i w))
      as (_ & -> & _ & -> & _). repeat split.
  - destruct (after_state_frame pg r (settle i w))
      as (_ & -> & _ & -> & _). repeat split.
  - destruct r as [| [|] [| | rows | o]]; repeat split.
  - destruct r as [| ok [| | rows | o]]; repeat split.
  - destruct r as [| ok [| | rows | o]]; repeat split.
  - destruct r as [| ok [| | rows | o]]; repeat split.
Qed.

Lemma choice_from_step (pg : page) (choices : list (option string))
    (e : event) (w : world) :
  choice_from choices w -> choice_from choices (step pg e w).
Proof.
  intros [Hchips Hchoice].
  destruct e as [taskId | t | | i | | s | | | | s | i r]; cbn [step].
  - destruct (has_button taskId w); split; assumption.
  - unfold openQuest, ensureModal.
    destruct (negb _ || _ || _ || _ || _ || _); [split; assumption |].
    split; [| left; reflexivity].
    cbn [fetch with_quest_view quest_view set_pills pills].
    rewrite map_map. exact Hchips.
  - unfold closeQuest. destruct (has_quest_modal pg); split; assumption.
  - unfold choosePill.
    destruct (pills (quest_view w) !! i) as [btn |] eqn:Hbtn;
      [| split; assumption].
    split.
    + cbn [with_quest_view with_currentQuest quest_view set_pills pills].
      rewrite imap_data_choice by reflexivity. exact Hchips.
    + cbn [with_quest_view with_currentQuest currentQuest choice].
      unfold Js.or_else. destruct (data_choice btn) as [c |] eqn:Hc;
        [| left; reflexivity].
      destruct (Js.nonempty c); [| left; reflexivity].
      right. rewrite <- Hchips, <- Hc.
      apply list_elem_of_In, in_map, list_elem_of_In.
      apply list_elem_of_lookup_2 in Hbtn. exact Hbtn.
  - unfold scoreQuest, ensureModal.
    destruct (negb _ || _ || _ || _ || _ || _); split; assumption.
  - destruct (has_quest_text pg); split; assumption.
  - unfold openCoach. destruct (has_coach_modal pg && coach_ok pg);
      split; assumption.
  - unfold closeCoach. destruct (has_coach_modal pg); split; assumption.
  - unfold coachSend, coachSend_effects. destruct (coach_ok pg); [| split; assumption].
    destruct (Js.nonempty _); split; assumption.
  - destruct (has_coach_input pg); split; assumption.
  - destruct (receive_session pg i r w) as (Hp & Hc & _).
    unfold choice_from. rewrite Hp, Hc. split; assumption.
Qed.

(** X18: from start-up on, whatever happens, the chips keep the choices
    they carry, and the choice sent with a score request is empty or the
    choice of one of the chips of the page. *)
Theorem choice_is_a_chip (pg : page) (choices : list (option string))
    (es : list event) :
  choice_from choices (run pg es (boot choices)).
Proof.
  assert (H : forall w, choice_from choices w ->
                        choice_from choices (run pg es w)).
  { induction es as [| e es IH]; intros w Hw; [exact Hw |].
    cbn [run fold_left]. apply IH, choice_from_step, Hw. }
  apply H. split; [| left; reflexivity].
  cbn [boot quest_view pills]. rewrite map_map. apply map_id.
Qed.

(** X19: a second click on the send button of the coach, right after the
    first, does nothing: the first click has emptied the input. *)
Theorem coachSend_twice (pg : page) (w : world) :
  step pg ClickCoachSend (step pg ClickCoachSend w) = step pg ClickCoachSend w.
Proof.
  cbn [step].
  destruct (coach_ok pg) eqn:Hok.
  - destruct (Js.nonempty (Js.trim (input (coach w)))) eqn:Hne.
    + assert (E : coachSend pg w
                  = fetch (PostCoachChat (Js.trim (input (coach w))))
                      (with_coach (set_input EmptyString)
                         (with_coach (set_status "Thinking…")
                            (push user (Js.trim (input (coach w))) w)))).
      { unfold coachSend, coachSend_effects. rewrite Hok, Hne. reflexivity. }
      rewrite E. unfold coachSend, coachSend_effects. rewrite Hok. reflexivity.
    + assert (E : coachSend pg w = w).
      { unfold coachSend, coachSend_effects. rewrite Hok, Hne. reflexivity. }
      rewrite !E. reflexivity.
  - assert (E : coachSend pg w = w).
    { unfold coachSend, coachSend_effects. rewrite Hok. reflexivity. }
    rewrite !E. reflexivity.
Qed.

(** X20: the transcript only grows while the coach is open.  Every event
    but a click that opens the coach leaves the messages of the feed in
    place and adds at most one message at the end. *)
Theorem feed_only_grows (pg : page) (e : event) (w : world) :
  e <> ClickOpenCoach ->
  exists more,
    feed (coach (step pg e w)) = feed (coach w) ++ more
    /\ (length more <= 1)%nat.
Proof.
  intros Hopen.
  assert (Hnone : forall v : world,
             feed (coach v) = feed (coach w) ->
             exists more, feed (coach v) = feed (coach w) ++ more
                          /\ (length more <= 1)%nat).
  { intros v ->. exists []. rewrite app_nil_r. split; [reflexivity |].
    cbn [length]. lia. }
  destruct e as [taskId | t | | i | | s | | | | s | i r]; cbn [step].
  - apply Hnone. destruct (has_button taskId w); reflexivity.
  - apply Hnone. unfold openQuest, ensureModal.
    destruct (negb _ || _ || _ || _ || _ || _); reflexivity.
  - apply Hnone. unfold closeQuest. destruct (has_quest_modal pg); reflexivity.
  - apply Hnone. unfold choosePill.
    destruct (pills (quest_view w) !! i); reflexivity.
  - apply Hnone. unfold scoreQuest, ensureModal.
    destruct (negb _ || _ || _ || _ || _ || _); reflexivity.
  - apply Hnone. destruct (has_quest_text pg); reflexivity.
  - contradiction.
  - apply Hnone. unfold closeCoach. destruct (has_coach_modal pg); reflexivity.
  - unfold coachSend, coachSend_effects. destruct (coach_ok pg); [| apply Hnone; reflexivity].
    destruct (Js.nonempty _); [| apply Hnone; reflexivity].
    eexists. split; [reflexivity |]. cbn [length]. lia.
  - apply Hnone. destruct (has_coach_input pg); reflexivity.
  - unfold receive. destruct (bool_decide (i ∈ pending w));
      [| apply Hnone; reflexivity].
    destruct (sent w !! i) as [[| | taskId | t | t txt c | txt] |];
      [| | | | | | apply Hnone; reflexivity].
    + apply Hnone.
      destruct (after_leaderboard_frame pg r (settle i w)) as (_ & _ & -> & _).
      reflexivity.
    + apply Hnone.
      destruct (after_state_frame pg r (settle i w)) as (_ & _ & -> & _).
      reflexivity.
    + apply Hnone. destruct r as [| [|] [| | rows | o]]; reflexivity.
    + apply Hnone. destruct r as [| ok [| | rows | o]]; reflexivity.
    + apply Hnone. destruct r as [| ok [| | rows | o]]; reflexivity.
    + destruct r as [| ok [| | rows | o]];
        (eexists; split; [reflexivity | cbn [length]; lia]).
Qed.

Lemma feed_only_grows_reply :
  exists more,
    feed (coach (step full_page (Response 0 Rejected)
                   (step full_page ClickCoachSend typed_hello)))
    = feed (coach (step full_page ClickCoachSend typed_hello)) ++ more
    /\ (length more <= 1)%nat.
Proof.
  apply (feed_only_grows full_page (Response 0 Rejected)
           (step full_page ClickCoachSend typed_hello)).
  discriminate.
Defined.

(** X21: nothing guards against a second click on a Complete button.  The
    first click changes nothing on the page, so the button is still there,
    and two clicks in a row send two requests for the same task. *)
Theorem complete_clicked_twice (pg : page) (taskId : string) (w : world) :
  has_button taskId w = true ->
  let w' := run pg [ClickComplete taskId; ClickComplete taskId] w in
  sent w' = sent w ++ [PostCompleteTask taskId; PostCompleteTask taskId]
  /\ pending w' = pending w ++ [length (sent w); S (length (sent w))]
  /\ view w' = view w
  /\ has_button taskId w' = true.
Proof.
  intros Hb w'. subst w'. cbn [run fold_left step]. rewrite Hb.
  change (has_button taskId (completeTask taskId w))
    with (has_button taskId w).
  rewrite Hb. unfold completeTask. cbn [fetch sent pending view].
  rewrite <- !app_assoc, length_app. cbn [length app].
  rewrite Nat.add_1_r. repeat split. exact Hb.
Qed.

Lemma complete_clicked_twice_t1 :
  sent (run full_page [ClickComplete "t1"; ClickComplete "t1"] loaded_145)
  = [PostCompleteTask "t1"; PostCompleteTask "t1"].
Proof.
  destruct (complete_clicked_twice full_page "t1" loaded_145) as (H & _);
    [reflexivity | exact H].
Defined.

End Interaction.

(** ** Start-up *)

Section StartUp.
Import Net Game Wiring.

(** Until the handlers are wired, clicks on the buttons of the quest and of
    the coach are lost. *)
Lemma unwired_ignores_clicks (pg : page) (bt : buttons) (es : list event)
    (s : session) :
  wired s = false -> Forall (fun e => needs_wiring e = true) es ->
  play pg bt es s = s.
Proof.
  intros Hw Hes. induction Hes as [| e es He _ IH]; [reflexivity |].
  cbn [play fold_left].
  assert (E : react pg bt e s = s).
  { unfold react. rewrite He, Hw.
    destruct e; try discriminate He; reflexivity. }
  rewrite E. exact IH.
Qed.

Lemma play_app (pg : page) (bt : buttons) (es es' : list event) (s : session) :
  play pg bt (es ++ es') s = play pg bt es' (play pg bt es s).
Proof. unfold play. apply fold_left_app. Qed.

(** The world after [init] and what the first of its two responses leaves. *)
Lemma init_requests (w : world) :
  sent (now (init w)) = sent w ++ [GetLeaderboard; GetState]
  /\ pending (now (init w))
     = pending w ++ [length (sent w); S (length (sent w))]
  /\ sent (now (init w)) !! length (sent w) = Some GetLeaderboard
  /\ sent (now (init w)) !! S (length (sent w)) = Some GetState.
Proof.
  cbn [init now loadState loadLeaderboard fetch sent pending].
  rewrite <- !app_assoc, length_app. cbn [length app].
  rewrite Nat.add_1_r. repeat split.
  - apply list_lookup_middle. reflexivity.
  - change (sent w ++ [GetLeaderboard; GetState])
      with (sent w ++ [GetLeaderboard] ++ [GetState]).
    rewrite app_assoc. apply list_lookup_middle.
    rewrite length_app. cbn [length]. lia.
Qed.

(** X22: [init] sends the request for the leaderboard, then the one for
    the state, and wires the handlers when both responses have been
    handled, in whichever order they arrive and whatever they are, failures
    included.  After the first response the handlers are not wired yet, and
    the clicks on the buttons of the quest and of the coach made before the
    second are lost. *)
Theorem init_wires_after_both (pg : page) (bt : buttons) (w : world)
    (r1 r2 : response) (early late : list event) :
  Forall (fun e => needs_wiring e = true) early ->
  Forall (fun e => needs_wiring e = true) late ->
  let n := length (sent w) in
  let first_leaders :=
    play pg bt (early ++ [Response n r1] ++ late) (init w) in
  let first_state :=
    play pg bt (early ++ [Response (S n) r2] ++ late) (init w) in
  sent (now (init w)) = sent w ++ [GetLeaderboard; GetState]
  /\ wired (init w) = false
  /\ (wired first_leaders = false
      /\ now first_leaders = step pg (Response n r1) (now (init w))
      /\ react pg bt (Response (S n) r2) first_leaders
         = {| now := wire pg bt (step pg (Response (S n) r2) (now first_leaders));
              awaited := []; wired := true |})
  /\ (wired first_state = false
      /\ now first_state = step pg (Response (S n) r2) (now (init w))
      /\ react pg bt (Response n r1) first_state
         = {| now := wire pg bt (step pg (Response n r1) (now first_state));
              awaited := []; wired := true |}).
Proof.
  intros Hearly Hlate n first_leaders first_state.
  destruct (init_requests w) as (Hsent & Hpend & Hl1 & Hl2).
  fold n in Hpend, Hl1, Hl2.
  split; [exact Hsent |]. split; [reflexivity |].
  assert (Hin1 : n ∈ pending (now (init w))).
  { rewrite Hpend. apply elem_of_app. right. apply list_elem_of_here. }
  assert (Hin2 : S n ∈ pending (now (init w))).
  { rewrite Hpend. apply elem_of_app. right.
    apply list_elem_of_further, list_elem_of_here. }
  assert (Hf1 : filter (fun j => j ≠ n) [n; S n] = [S n]).
  { rewrite filter_cons, decide_False by (intros H; apply H; reflexivity).
    rewrite filter_cons, decide_True by lia. reflexivity. }
  assert (Hf2 : filter (fun j => j ≠ S n) [n; S n] = [n]).
  { rewrite filter_cons, decide_True by lia.
    rewrite filter_cons, decide_False by (intros H; apply H; reflexivity).
    reflexivity. }
  assert (Hf3 : forall a : nat, filter (fun j => j ≠ a) [a] = @nil nat).
  { intros a.
    rewrite filter_cons, decide_False by (intros H; apply H; reflexivity).
    reflexivity. }
  split.
  - assert (E : first_leaders
                = {| now := step pg (Response n r1) (now (init w));
                     awaited := [S n]; wired := false |}).
    { subst first_leaders. rewrite !play_app.
      rewrite (unwired_ignores_clicks pg bt early (init w) eq_refl Hearly).
      cbn [play fold_left]. unfold react at 1.
      cbn [init awaited wired now]. fold n.
      rewrite (bool_decide_eq_true_2 (n ∈ [n; S n]))
        by apply list_elem_of_here.
      change (loadState (loadLeaderboard w)) with (now (init w)).
      rewrite (bool_decide_eq_true_2 _ Hin1). cbn [andb]. rewrite Hf1.
      apply unwired_ignores_clicks; [reflexivity | exact Hlate]. }
    rewrite E. cbn [wired now]. split; [reflexivity |].
    split; [reflexivity |].
    unfold react. cbn [awaited now wired].
    rewrite (bool_decide_eq_true_2 (S n ∈ [S n]))
      by apply list_elem_of_here.
    assert (Hin : S n ∈ pending (step pg (Response n r1) (now (init w)))).
    { cbn [step]. unfold receive.
      rewrite (bool_decide_eq_true_2 _ Hin1). rewrite Hl1.
      destruct (after_leaderboard_frame pg r1 (settle n (now (init w))))
        as (_ & _ & _ & _ & _ & _ & ->).
      apply list_elem_of_filter. split; [lia | exact Hin2]. }
    rewrite (bool_decide_eq_true_2 _ Hin). cbn [andb]. rewrite Hf3.
    reflexivity.
  - assert (E : first_state
                = {| now := step pg (Response (S n) r2) (now (init w));
                     awaited := [n]; wired := false |}).
    { subst first_state. rewrite !play_app.
      rewrite (unwired_ignores_clicks pg bt early (init w) eq_refl Hearly).
      cbn [play fold_left]. unfold react at 1.
      cbn [init awaited wired now]. fold n.
      rewrite (bool_decide_eq_true_2 (S n ∈ [n; S n]))
        by apply list_elem_of_further, list_elem_of_here.
      change (loadState (loadLeaderboard w)) with (now (init w)).
      rewrite (bool_decide_eq_true_2 _ Hin2). cbn [andb]. rewrite Hf2.
      apply unwired_ignores_clicks; [reflexivity | exact Hlate]. }
    rewrite E. cbn [wired now]. split; [reflexivity |].
    split; [reflexivity |].
    unfold react. cbn [awaited now wired].
    rewrite (bool_decide_eq_true_2 (n ∈ [n])) by apply list_elem_of_here.
    assert (Hin : n ∈ pending (step pg (Response (S n) r2) (now (init w)))).
    { cbn [step]. unfold receive.
      rewrite (bool_decide_eq_true_2 _ Hin2). rewrite Hl2.
      destruct (after_state_frame pg r2 (settle (S n) (now (init w))))
        as (_ & _ & _ & _ & _ & _ & ->).
      apply list_elem_of_filter. split; [lia | exact Hin1]. }
    rewrite (bool_decide_eq_true_2 _ Hin). cbn [andb]. rewrite Hf3.
    reflexivity.
Qed.

Lemma init_wires_after_both_failures :
  wired (play full_page all_buttons
           [ClickStart coffee; Response 0 Rejected; ClickOpenCoach]
           (init (boot [])))
  = false
  /\ wired (play full_page all_buttons
              [ ClickStart coffee; Response 0 Rejected; ClickOpenCoach;
                Response 1 Rejected ]
              (init (boot [])))
     = true.
Proof.
  destruct (init_wires_after_both full_page all_buttons (boot [])
              Rejected Rejected [ClickStart coffee] [ClickOpenCoach])
    as (_ & _ & (H1 & _ & H2) & _).
  - repeat constructor.
  - repeat constructor.
  - split; [exact H1 |].
    change (play full_page all_buttons
              [ ClickStart coffee; Response 0 Rejected; ClickOpenCoach;
                Response 1 Rejected ] (init (boot [])))
      with (react full_page all_buttons (Response 1 Rejected)
              (play full_page all_buttons
                 ([ClickStart coffee] ++ [Response 0 Rejected]
                    ++ [ClickOpenCoach]) (init (boot [])))).
    cbv zeta in H2. cbn [length boot sent] in H2. rewrite H2. reflexivity.
Defined.


End StartUp.

(** ** The two scripts side by side *)

Section TwoScripts.
Import Net Game.

(** X25: the status of a response is consulted by [completeTask] only.
    The loaders of state and leaderboard, the quest start, the score
    handler and the coach of [static/gamescript.js], and the loaders and
    [saveProgress] of the earlier script, treat a response with an error
    status as they treat a successful one with the same body;
    [saveProgress] confirms whatever arrives.  [completeTask] tells them
    apart. *)
Theorem status_is_consulted_by_completeTask_only (pg : page) (ok : bool)
    (b : body) (o : object) (w : world) (old : Legacy.world) :
  after_leaderboard pg (Replied ok b) w = after_leaderboard pg (Replied true b) w
  /\ after_state pg (Replied ok b) w = after_state pg (Replied true b) w
  /\ after_questStart (Replied ok b) w = after_questStart (Replied true b) w
  /\ after_questScore (Replied ok b) w = after_questScore (Replied true b) w
  /\ after_coachChat (Replied ok b) w = after_coachChat (Replied true b) w
  /\ LegacyLoad.after_loadState (Replied ok b) old
     = LegacyLoad.after_loadState (Replied true b) old
  /\ LegacyLoad.after_loadProgress (Replied ok b) old
     = LegacyLoad.after_loadProgress (Replied true b) old
  /\ Legacy.alerts (LegacyLoad.after_saveProgress (Replied ok b) old)
     = Legacy.alerts old ++ ["Progress saved!"]
  /\ after_completeTask (Replied false (Object o)) w
     <> after_completeTask (Replied true (Object o)) w
  /\ Legacy.after_completeTask (Replied false (Object o)) old
     <> Legacy.after_completeTask (Replied true (Object o)) old.
Proof.
  split.
  { unfold after_leaderboard.
    destruct b as [| | [| r1 rs] | o']; reflexivity. }
  do 7 (split; [destruct b as [| | rows | o']; reflexivity |]).
  split.
  - cbn [after_completeTask]. intros H.
    apply (f_equal (fun v => length (alerts v))) in H.
    cbn [alert alerts refresh loadLeaderboard loadState fetch] in H.
    rewrite length_app in H. cbn [length] in H. lia.
  - cbn [Legacy.after_completeTask]. intros H.
    apply (f_equal (fun v => length (Legacy.alerts v))) in H.
    cbn [Legacy.alert Legacy.alerts Legacy.with_page] in H.
    rewrite length_app in H. cbn [length] in H. lia.
Qed.

End TwoScripts.
